(** * Verification of the documentation agent of elastic-package

    Shallow embedding of the documentation agent (package [llmagent]) and of
    its package tools (package [tools]): the reply classifier, the
    human-edited section preservation check, the path confinement of the file
    tools over a model of the file system with symbolic links, the backup
    and restore of the managed documentation file, the unattended
    orchestration loop and the MCP tool discovery. *)

From Stdlib Require Import String Ascii List Bool Arith Lia.
Import ListNotations.
Open Scope string_scope.

(** ** Go string primitives *)

(** [strings.HasPrefix s prefix]. *)
Definition has_prefix (s prefix : string) : bool := String.prefix prefix s.

(** [strings.Contains s sub]: [sub] occurs at some byte offset of [s]. *)
Fixpoint contains (s sub : string) : bool :=
  String.prefix sub s ||
  match s with
  | EmptyString => false
  | String _ s' => contains s' sub
  end.

(** [strings.Index s sub], [None] standing for Go's [-1]. *)
Fixpoint index (s sub : string) : option nat :=
  if String.prefix sub s then Some 0 else
  match s with
  | EmptyString => None
  | String _ s' => option_map S (index s' sub)
  end.

(** [strings.ToLower] on UTF-8 text: ASCII capitals and the capitals of
    the Latin-1 supplement (U+00C0..U+00DE except U+00D7, encoded
    [0xC3 0x80..0x9E]) are mapped to their lower-case letters; other code
    points are left as they are. *)
Fixpoint to_lower (s : string) : string :=
  match s with
  | EmptyString => EmptyString
  | String c rest =>
      let n := nat_of_ascii c in
      if (65 <=? n)%nat && (n <=? 90)%nat then String (ascii_of_nat (n + 32)%nat) (to_lower rest)
      else if (n =? 195)%nat then
        match rest with
        | String c2 rest2 =>
            let m := nat_of_ascii c2 in
            if (128 <=? m)%nat && (m <=? 158)%nat && negb (m =? 151)%nat
            then String c (String (ascii_of_nat (m + 32)%nat) (to_lower rest2))
            else String c (to_lower rest)
        | EmptyString => String c EmptyString
        end
      else String c (to_lower rest)
  end.

Definition byte_is (c : ascii) (n : nat) : bool := (nat_of_ascii c =? n)%nat.

(** [strings.TrimSpace s == ""]: every code point of [s] is white space
    in the sense of [unicode.IsSpace] (ASCII \t \n \v \f \r and space,
    U+0085, U+00A0, U+1680, U+2000..U+200A, U+2028, U+2029, U+202F,
    U+205F, U+3000). *)
Fixpoint is_blank (s : string) : bool :=
  match s with
  | EmptyString => true
  | String c rest =>
      let n := nat_of_ascii c in
      if ((9 <=? n)%nat && (n <=? 13)%nat) || (n =? 32)%nat then is_blank rest
      else if (n =? 194)%nat then
        match rest with
        | String c2 rest2 =>
            if byte_is c2 133%nat || byte_is c2 160%nat then is_blank rest2 else false
        | EmptyString => false
        end
      else if (n =? 225)%nat then
        match rest with
        | String c2 (String c3 rest3) =>
            if byte_is c2 154%nat && byte_is c3 128%nat then is_blank rest3 else false
        | _ => false
        end
      else if (n =? 226)%nat then
        match rest with
        | String c2 (String c3 rest3) =>
            let m3 := nat_of_ascii c3 in
            if (byte_is c2 128%nat && (((128 <=? m3)%nat && (m3 <=? 138)%nat) || (m3 =? 168)%nat
                                   || (m3 =? 169)%nat || (m3 =? 175)%nat))
               || (byte_is c2 129%nat && (m3 =? 159)%nat)
            then is_blank rest3 else false
        | _ => false
        end
      else if (n =? 227)%nat then
        match rest with
        | String c2 (String c3 rest3) =>
            if byte_is c2 128%nat && byte_is c3 128%nat then is_blank rest3 else false
        | _ => false
        end
      else false
  end.

(** ** Conversation entries and the reply classifier *)

(** [ConversationEntry]; the tool name is not used by the classifier. *)
Record ConversationEntry := mkEntry {
  entry_type : string;
  entry_content : string
}.

(** The literals of [hasRecentSuccessfulTools]: the phrases that mark a
    tool result as a success and as a failure.  The two source versions
    differ only here. *)
Record ToolPhrases := mkPhrases {
  success_phrases : list string;
  failure_phrases : list string
}.

(** Current version (package llmagent, [targetDocFile] agent): the file
    stores the emoji as mis-decoded text; it is kept byte for byte. *)
Definition phrases_current : ToolPhrases :=
  mkPhrases ["‚úÖ success"; "successfully wrote"; "completed successfully"]
            ["‚ùå error"; "failed:"; "access denied"].

(** Earlier version (package llmagent, README agent with MCP servers). *)
Definition phrases_readme : ToolPhrases :=
  mkPhrases ["✅ success"; "successfully wrote"; "completed successfully"]
            ["❌ error"; "failed:"; "access denied"].

Definition matches_any (c : string) (phrases : list string) : bool :=
  existsb (contains c) phrases.

(** The body of the loop of [hasRecentSuccessfulTools], over the entries
    in the order the loop visits them (most recent first). *)
Fixpoint scan_recent (ph : ToolPhrases) (es : list ConversationEntry) : bool :=
  match es with
  | [] => false
  | e :: es' =>
      if String.eqb (entry_type e) "tool_result" then
        let content := to_lower (entry_content e) in
        if matches_any content (success_phrases ph) then true
        else if matches_any content (failure_phrases ph) then false
        else scan_recent ph es'
      else scan_recent ph es'
  end.

(** [hasRecentSuccessfulTools]: the loop runs [i] from [len-1] down to
    [max 0 (len-5)], that is over the first five entries of the reversed
    conversation. *)
Definition hasRecentSuccessfulTools (ph : ToolPhrases) (conversation : list ConversationEntry) : bool :=
  scan_recent ph (firstn 5 (rev conversation)).

Definition tokenLimitIndicators : list string :=
  ["I reached the maximum response length"; "maximum response length";
   "reached the token limit"; "response is too long";
   "breaking this into smaller tasks"; "due to length constraints";
   "response length limit"; "token limit reached";
   "output limit exceeded"; "maximum length exceeded"].

(** [isTokenLimitMessage]. *)
Definition isTokenLimitMessage (content : string) : bool :=
  let contentLower := to_lower content in
  existsb (fun indicator => contains contentLower (to_lower indicator)) tokenLimitIndicators.

Definition errorIndicators : list string :=
  ["I encountered an error"; "I'm experiencing an error"; "I cannot complete";
   "I'm unable to complete"; "Something went wrong"; "There was an error";
   "I'm having trouble"; "I failed to"; "Error occurred";
   "Task did not complete within maximum iterations"].

Definition hasErrorIndicator (content : string) : bool :=
  let contentLower := to_lower content in
  existsb (fun indicator => contains contentLower (to_lower indicator)) errorIndicators.

(** [isTaskResultError content conversation].  A nil conversation and an
    empty one behave alike ([hasRecentSuccessfulTools] of an empty list is
    false), so the conversation is a plain list. *)
Definition isTaskResultError_with (ph : ToolPhrases) (content : string)
    (conversation : list ConversationEntry) : bool :=
  if is_blank content then false
  else if isTokenLimitMessage content then false
  else if negb (hasErrorIndicator content) then false
  else if hasRecentSuccessfulTools ph conversation then false
  else true.

Definition isTaskResultError := isTaskResultError_with phrases_current.

Inductive Classification := Success | TokenLimitHit | ErrorLike.

(** The order in which [runNonInteractiveMode] and [runInteractiveMode]
    test a reply: [isTokenLimitMessage] first, then [isTaskResultError]. *)
Definition classify_reply_with (ph : ToolPhrases) (content : string)
    (conversation : list ConversationEntry) : Classification :=
  if isTokenLimitMessage content then TokenLimitHit
  else if isTaskResultError_with ph content conversation then ErrorLike
  else Success.

Definition classify_reply := classify_reply_with phrases_current.

(** [isErrorResponse content]: [isTaskResultError(content, nil)]. *)
Definition isErrorResponse (content : string) : bool := isTaskResultError content [].

Example classify_ex1 :
  classify_reply "I reached the maximum response length" [] = TokenLimitHit.
Proof. vm_compute. reflexivity. Qed.

Example classify_ex2 :
  classify_reply "I failed to write the file"
    [mkEntry "tool_result" "Successfully wrote 12 bytes to _dev/build/docs/README.md"] = Success.
Proof. vm_compute. reflexivity. Qed.

Example classify_ex3 :
  classify_reply "I failed to write the file" [] = ErrorLike.
Proof. vm_compute. reflexivity. Qed.

Example to_lower_mojibake :
  contains (to_lower "‚úÖ success") "‚úÖ success" = false.
Proof. vm_compute. reflexivity. Qed.

(** ** Human-edited sections *)

(** A Go [map[string]string] as an association list: [m[k] = v]
    overwrites the value of an existing key and adds a new key at the
    end.  Go iterates over a map in an unspecified order; the list order
    stands for one such order. *)
Definition smap := list (string * string).

Fixpoint map_set (k v : string) (m : smap) : smap :=
  match m with
  | [] => [(k, v)]
  | (k', v') :: m' => if String.eqb k k' then (k, v) :: m' else (k', v') :: map_set k v m'
  end.

(** [fmt.Sprintf("%d", n)] for a natural number. *)
Fixpoint itoa_aux (fuel n : nat) (acc : string) : string :=
  match fuel with
  | O => acc
  | S f =>
      let acc' := String (ascii_of_nat (48 + n mod 10)) acc in
      if (n <? 10)%nat then acc' else itoa_aux f (n / 10) acc'
  end.

Definition itoa (n : nat) : string := itoa_aux (S n) n "".

(** A marker pair of [extractPreservedSections]. *)
Record Marker := mkMarker {
  marker_start : string;
  marker_end : string;
  marker_name : string
}.

(** The marker pairs of the current version. *)
Definition preserve_markers : list Marker :=
  [mkMarker "<!-- PRESERVE START -->" "<!-- PRESERVE END -->" "PRESERVE"].

(** The marker pairs of the earlier version (line 794 on), which also
    keeps the [HUMAN-EDITED] blocks. *)
Definition preserve_markers_earlier : list Marker :=
  [mkMarker "<!-- HUMAN-EDITED START -->" "<!-- HUMAN-EDITED END -->" "HUMAN-EDITED";
   mkMarker "<!-- PRESERVE START -->" "<!-- PRESERVE END -->" "PRESERVE"].

(** [content[i:]]. *)
Definition suffix_from (i : nat) (content : string) : string :=
  substring i (String.length content - i) content.

(** The inner [for] loop of [extractPreservedSections] for one marker
    pair.  Every round moves [startIdx] past an end marker, so the loop
    runs at most [len(content) + 1] rounds, which is the fuel given
    below. *)
Fixpoint extract_marker (fuel : nat) (content : string) (mk : Marker)
    (startIdx sectionNum : nat) (sections : smap) : smap :=
  match fuel with
  | O => sections
  | S fuel' =>
      match index (suffix_from startIdx content) (marker_start mk) with
      | None => sections
      | Some s0 =>
          let start := (s0 + startIdx)%nat in
          match index (suffix_from start content) (marker_end mk) with
          | None => sections
          | Some e0 =>
              let end_ := (e0 + start)%nat in
              let stop := (end_ + String.length (marker_end mk))%nat in
              let sectionContent := substring start (stop - start) content in
              let sectionKey := marker_name mk ++ "-" ++ itoa sectionNum in
              extract_marker fuel' content mk stop (S sectionNum)
                (map_set sectionKey sectionContent sections)
          end
      end
  end.

(** [extractPreservedSections]. *)
Definition extractPreservedSections_with (markers : list Marker) (content : string) : smap :=
  fold_left (fun sections mk =>
               extract_marker (S (String.length content)) content mk 0 1 sections)
            markers [].

Definition extractPreservedSections := extractPreservedSections_with preserve_markers.

Definition extractPreservedSections_earlier := extractPreservedSections_with preserve_markers_earlier.

Definition preservation_warning (marker : string) : string :=
  "Human-edited section '" ++ marker ++ "' was not preserved".

(** The loop of [validatePreservedSections] over the extracted map. *)
Fixpoint collect_warnings (newContent : string) (sections : smap) : list string :=
  match sections with
  | [] => []
  | (marker, content) :: rest =>
      (if negb (contains newContent content) then [preservation_warning marker] else [])
        ++ collect_warnings newContent rest
  end.

(** [validatePreservedSections originalContent newContent]. *)
Definition validatePreservedSections_with (markers : list Marker)
    (originalContent newContent : string) : list string :=
  collect_warnings newContent (extractPreservedSections_with markers originalContent).

Definition validatePreservedSections := validatePreservedSections_with preserve_markers.

Definition validatePreservedSections_earlier := validatePreservedSections_with preserve_markers_earlier.

Example extract_ex :
  extractPreservedSections
    "a<!-- PRESERVE START -->x<!-- PRESERVE END -->b<!-- PRESERVE START -->y<!-- PRESERVE END -->"
  = [("PRESERVE-1", "<!-- PRESERVE START -->x<!-- PRESERVE END -->");
     ("PRESERVE-2", "<!-- PRESERVE START -->y<!-- PRESERVE END -->")].
Proof. vm_compute. reflexivity. Qed.

Example validate_ex :
  validatePreservedSections
    "a<!-- PRESERVE START -->x<!-- PRESERVE END -->b" "new text"
  = ["Human-edited section 'PRESERVE-1' was not preserved"].
Proof. vm_compute. reflexivity. Qed.

(** ** File system with symbolic links *)

(** An absolute path as the list of its components. *)
Definition path := list string.

Inductive node := File (data : string) | Dir | Symlink (target : string).

(** The file system maps the physical paths (paths without symbolic links
    among their components) of its entries to their nodes; the root
    directory [/] is always present and is not listed. *)
Definition fsys := list (path * node).

Definition path_eqb (p q : path) : bool :=
  if list_eq_dec string_dec p q then true else false.

Fixpoint fs_lookup (fs : fsys) (p : path) : option node :=
  match fs with
  | [] => None
  | (q, n) :: fs' => if path_eqb q p then Some n else fs_lookup fs' p
  end.

Definition fs_remove (fs : fsys) (p : path) : fsys :=
  filter (fun e => negb (path_eqb (fst e) p)) fs.

Definition fs_set (fs : fsys) (p : path) (n : node) : fsys :=
  (p, n) :: fs_remove fs p.

(** The components of a slash-separated path string, empty ones included
    ([""] for an empty string, a leading [""] for an absolute path). *)
Fixpoint split_path_aux (s cur : string) : list string :=
  match s with
  | EmptyString => [cur]
  | String c r =>
      if ascii_dec c "/" then cur :: split_path_aux r ""
      else split_path_aux r (cur ++ String c "")
  end.

Definition split_path (s : string) : list string := split_path_aux s "".

Definition is_dot (s : string) : bool := String.eqb s "" || String.eqb s ".".
Definition is_dotdot (s : string) : bool := String.eqb s "..".

(** [filepath.Clean] of an absolute path: empty and [.] components are
    dropped, [..] removes the previous component and is dropped at the
    root. *)
Fixpoint clean_aux (stack : list string) (segs : list string) : path :=
  match segs with
  | [] => rev stack
  | s :: r =>
      if is_dot s then clean_aux stack r
      else if is_dotdot s then clean_aux (tl stack) r
      else clean_aux (s :: stack) r
  end.

Definition clean (segs : list string) : path := clean_aux [] segs.

(** [filepath.Join(root, elems...)] for an absolute [root]. *)
Definition join (root : string) (elems : list string) : path :=
  clean (split_path root ++ flat_map split_path elems)%list.

Definition path_string (p : path) : string := "/" ++ String.concat "/" p.

(** [filepath.Rel(basepath, targpath)] for two clean absolute paths (it
    never fails for such paths). *)
Fixpoint rel_segs (base targ : path) : list string :=
  match base, targ with
  | b :: bs, t :: ts =>
      if String.eqb b t then rel_segs bs ts else (map (fun _ => "..") base ++ targ)%list
  | [], _ => targ
  | _, [] => map (fun _ => "..") base
  end.

Definition rel (base targ : path) : string :=
  match rel_segs base targ with
  | [] => "."
  | r => String.concat "/" r
  end.

(** The test [strings.HasPrefix(relPath, "..")] of the path checks. *)
Definition escapes (base targ : path) : bool := has_prefix (rel base targ) "..".

(** [filepath.Dir] of a clean absolute path. *)
Definition parent (p : path) : path := removelast p.

(** Outcome of a path resolution: the physical path, or an error that
    [os.IsNotExist] recognises ([WNotExist], ENOENT), or another error
    ([WOther]: ENOTDIR, too many links). *)
Inductive walk_result := WOk (p : path) | WNotExist | WOther.

(** Path resolution, following [walkSymlinks] of [path/filepath]
    (behind [filepath.EvalSymlinks]) and the kernel's resolution of a
    path given to [open], [stat] or [mkdir].  [links] is the number of
    symbolic links that may still be followed; [dest] is the physical
    directory reached so far.  With [creat], a missing last component is
    not an error: [open] with [O_CREATE] creates it there. *)
Fixpoint walk (fs : fsys) (creat : bool) (links : nat) (dest : path)
    (rest : list string) {struct links} : walk_result :=
  let fix go (dest : path) (rest : list string) : walk_result :=
    match rest with
    | [] => WOk dest
    | seg :: rest' =>
        if is_dot seg then go dest rest'
        else if is_dotdot seg then go (removelast dest) rest'
        else
          let d := (dest ++ [seg])%list in
          match fs_lookup fs d with
          | None =>
              match rest' with
              | [] => if creat then WOk d else WNotExist
              | _ => WNotExist
              end
          | Some Dir => go d rest'
          | Some (File _) =>
              match rest' with
              | [] => WOk d
              | _ => WOther
              end
          | Some (Symlink target) =>
              match links with
              | O => WOther
              | S links' =>
                  walk fs creat links'
                    (if has_prefix target "/" then [] else dest)
                    (split_path target ++ rest')%list
              end
          end
    end
  in go dest rest.

(** [filepath.EvalSymlinks]: at most 255 links. *)
Definition eval_symlinks (fs : fsys) (p : path) : walk_result := walk fs false 255 [] p.

(** The kernel's resolution: at most 40 links (MAXSYMLINKS). *)
Definition os_resolve (fs : fsys) (creat : bool) (p : path) : walk_result := walk fs creat 40 [] p.

Definition is_dir_node (o : option node) : bool :=
  match o with Some Dir => true | _ => false end.

(** The physical path [p] is a directory (the root always is). *)
Definition is_dir_at (fs : fsys) (p : path) : bool :=
  match p with [] => true | _ => is_dir_node (fs_lookup fs p) end.

(** [os.Stat(p) == nil]. *)
Definition os_exists (fs : fsys) (p : path) : bool :=
  match os_resolve fs false p with WOk _ => true | _ => false end.

(** [os.ReadFile]. *)
Definition os_read_file (fs : fsys) (p : path) : option string :=
  match os_resolve fs false p with
  | WOk q => match fs_lookup fs q with Some (File c) => Some c | _ => None end
  | _ => None
  end.

(** [os.WriteFile] ([O_WRONLY|O_CREATE|O_TRUNC]). *)
Definition os_write_file (fs : fsys) (p : path) (data : string) : option fsys :=
  match os_resolve fs true p with
  | WOk q =>
      match fs_lookup fs q with
      | None | Some (File _) => Some (fs_set fs q (File data))
      | _ => None
      end
  | _ => None
  end.

(** [os.Mkdir]: the parent is resolved, the last component must not
    exist (not even as a dangling link). *)
Definition os_mkdir (fs : fsys) (p : path) : option fsys :=
  match os_resolve fs false (parent p) with
  | WOk pd =>
      if is_dir_at fs pd then
        let d := (pd ++ [last p ""])%list in
        match fs_lookup fs d with
        | None => Some (fs_set fs d Dir)
        | Some _ => None
        end
      else None
  | _ => None
  end.

(** [os.Lstat(p)] reports a directory. *)
Definition os_lstat_is_dir (fs : fsys) (p : path) : bool :=
  match os_resolve fs false (parent p) with
  | WOk pd => is_dir_node (fs_lookup fs ((pd ++ [last p ""])%list))
  | _ => false
  end.

(** [os.MkdirAll], over the components of the path in reverse order:
    [Stat] first; otherwise the parent is created (unless it is the
    root), then [Mkdir], whose failure is forgiven when [Lstat] then
    reports a directory. *)
Fixpoint mkdir_all_rev (fs : fsys) (rsegs : list string) : option fsys :=
  match rsegs with
  | [] => Some fs
  | _ :: rparent =>
      let p := rev rsegs in
      match os_resolve fs false p with
      | WOk q => if is_dir_at fs q then Some fs else None
      | _ =>
          let made := match rparent with
                      | [] => Some fs
                      | _ => mkdir_all_rev fs rparent
                      end in
          match made with
          | None => None
          | Some fs1 =>
              match os_mkdir fs1 p with
              | Some fs2 => Some fs2
              | None => if os_lstat_is_dir fs1 p then Some fs1 else None
              end
          end
      end
  end.

Definition os_mkdir_all (fs : fsys) (p : path) : option fsys := mkdir_all_rev fs (rev p).

(** [os.Remove]: unlinks the last component (a file or a link), or
    removes it when it is an empty directory. *)
Definition os_remove (fs : fsys) (p : path) : option fsys :=
  match os_resolve fs false (parent p) with
  | WOk pd =>
      let d := (pd ++ [last p ""])%list in
      match fs_lookup fs d with
      | None => None
      | Some Dir =>
          if existsb (fun e => path_eqb (removelast (fst e)) d && negb (path_eqb (fst e) d)) fs
          then None else Some (fs_remove fs d)
      | Some _ => Some (fs_remove fs d)
      end
  | _ => None
  end.

(** ** Package tools *)

(** [ToolResult]: a content payload or an error message. *)
Inductive ToolResult := ToolContent (content : string) | ToolError (error : string).

(** What a [ToolHandler] returns, a [ToolResult] pointer and an error: a result with a
    nil Go error ([Ret]), or a nil result with a Go error ([Fault]). *)
Inductive HandlerOut := Ret (r : ToolResult) | Fault (err : string).

Fixpoint insert_sorted (x : string * node) (l : list (string * node)) : list (string * node) :=
  match l with
  | [] => [x]
  | y :: l' => if String.leb (fst x) (fst y) then x :: l else y :: insert_sorted x l'
  end.

(** [os.ReadDir]: the entries of the directory, sorted by name, each with
    the node [Lstat] reports for it. *)
Definition os_read_dir (fs : fsys) (p : path) : option (list (string * node)) :=
  match os_resolve fs false p with
  | WOk q =>
      if is_dir_at fs q then
        let is_child e := path_eqb (removelast (fst e)) q && negb (path_eqb (fst e) q) in
        let names := nodup string_dec (map (fun e => last (fst e) "") (filter is_child fs)) in
        let entries := flat_map (fun nm => match fs_lookup fs (q ++ [nm])%list with
                                           | Some n => [(nm, n)]
                                           | None => []
                                           end) names in
        Some (fold_right insert_sorted [] entries)
      else None
  | _ => None
  end.

(** The listing written by [listDirectoryHandler]; [docs] entries are
    hidden.  A link is not a directory entry, and its [Info] is the one of
    the link itself. *)
Definition listing_line (e : string * node) : string :=
  let '(name, n) := e in
  if String.eqb name "docs" then ""
  else match n with
       | Dir => "  " ++ name ++ "/ (directory)" ++ String (ascii_of_nat 10) ""
       | File c => "  " ++ name ++ " (file, " ++ itoa (String.length c) ++ " bytes)" ++ String (ascii_of_nat 10) ""
       | Symlink t => "  " ++ name ++ " (file, " ++ itoa (String.length t) ++ " bytes)" ++ String (ascii_of_nat 10) ""
       end.

Definition listing (userPath : string) (entries : list (string * node)) : string :=
  "Contents of " ++ userPath ++ ":" ++ String (ascii_of_nat 10) ""
    ++ String.concat "" (map listing_line entries).

(** The package tools of package [tools] ([validatePathInRoot] resolves
    symbolic links).  Arguments arrive already decoded from their JSON
    object; a decoding failure is an ordinary tool error before any of
    the code below. *)
Module Tools.

(** [validatePathInRoot packageRoot userPath]: [inl fullPath] or
    [inr error]. *)
Definition validatePathInRoot (fs : fsys) (packageRoot userPath : string) : path + string :=
  let fullPath := join packageRoot [userPath] in
  let resolvedPath :=
    match eval_symlinks fs fullPath with
    | WOk p => inl p
    | WNotExist => inl (clean fullPath)
    | WOther => inr ("failed to resolve path: lstat " ++ path_string fullPath)
    end in
  match resolvedPath with
  | inr e => inr e
  | inl resolvedPath =>
      match eval_symlinks fs (split_path packageRoot) with
      | WOk resolvedRoot =>
          if escapes (clean resolvedRoot) (clean resolvedPath)
          then inr ("path '" ++ userPath ++ "' is outside package root")
          else inl fullPath
      | _ => inr ("failed to resolve package root: lstat " ++ packageRoot)
      end
  end.

(** [listDirectoryHandler]. *)
Definition listDirectoryHandler (fs : fsys) (packageRoot userPath : string) : HandlerOut :=
  match validatePathInRoot fs packageRoot userPath with
  | inr e => Ret (ToolError ("access denied: " ++ e))
  | inl fullPath =>
      match os_read_dir fs fullPath with
      | None => Ret (ToolError ("failed to read directory: " ++ path_string fullPath))
      | Some entries => Ret (ToolContent (listing userPath entries))
      end
  end.

(** [readFileHandler]. *)
Definition readFileHandler (fs : fsys) (packageRoot userPath : string) : HandlerOut :=
  if has_prefix userPath "docs/" && negb (has_prefix userPath "docs/knowledge_base/") then
    Ret (ToolError "access denied: cannot read generated documentation in docs/ (use _dev/build/docs/ instead)")
  else
    match validatePathInRoot fs packageRoot userPath with
    | inr e => Ret (ToolError ("access denied: " ++ e))
    | inl fullPath =>
        match os_read_file fs fullPath with
        | None => Ret (ToolError ("failed to read file: " ++ path_string fullPath))
        | Some c => Ret (ToolContent c)
        end
    end.

(** [writeFileHandler]: the result and the file system afterwards. *)
Definition writeFileHandler (fs : fsys) (packageRoot userPath content : string) : HandlerOut * fsys :=
  match validatePathInRoot fs packageRoot userPath with
  | inr e => (Ret (ToolError ("access denied: " ++ e)), fs)
  | inl fullPath =>
      let allowedDir := join packageRoot ["_dev"; "build"; "docs"] in
      let resolvedAllowed :=
        match eval_symlinks fs allowedDir with
        | WOk p => inl p
        | WNotExist => inl (clean allowedDir)
        | WOther => inr ("failed to resolve allowed directory: lstat " ++ path_string allowedDir)
        end in
      match resolvedAllowed with
      | inr e => (Ret (ToolError e), fs)
      | inl resolvedAllowed =>
          if escapes (clean resolvedAllowed) (clean fullPath) then
            (Ret (ToolError ("access denied: path '" ++ userPath ++ "' is outside allowed directory (_dev/build/docs/)")), fs)
          else
            match os_mkdir_all fs (parent fullPath) with
            | None => (Ret (ToolError ("failed to create directory: " ++ path_string (parent fullPath))), fs)
            | Some fs1 =>
                match os_write_file fs1 fullPath content with
                | None => (Ret (ToolError ("failed to write file: " ++ path_string fullPath)), fs1)
                | Some fs2 =>
                    (Ret (ToolContent ("Successfully wrote " ++ itoa (String.length content)
                                       ++ " bytes to " ++ userPath)), fs2)
                end
            end
      end
  end.

End Tools.

(** The package tools of the earlier [llmagent] package: the checks are
    lexical ([filepath.Clean] and [filepath.Rel]), with no symbolic link
    resolution. *)
Module Legacy.

(** [listDirectoryHandler]. *)
Definition listDirectoryHandler (fs : fsys) (packageRoot userPath : string) : HandlerOut :=
  let fullPath := join packageRoot [userPath] in
  let cleanRoot := clean (split_path packageRoot) in
  if escapes cleanRoot (clean fullPath) then Ret (ToolError "access denied: path outside package root")
  else
    match os_read_dir fs fullPath with
    | None => Ret (ToolError ("failed to read directory: " ++ path_string fullPath))
    | Some entries => Ret (ToolContent (listing userPath entries))
    end.

(** [readFileHandler]. *)
Definition readFileHandler (fs : fsys) (packageRoot userPath : string) : HandlerOut :=
  if has_prefix userPath "docs/" then Ret (ToolError "access denied: invalid path")
  else
    let fullPath := join packageRoot [userPath] in
    let cleanRoot := clean (split_path packageRoot) in
    if escapes cleanRoot (clean fullPath) then Ret (ToolError "access denied: path outside package root")
    else
      match os_read_file fs fullPath with
      | None => Ret (ToolError ("failed to read file: " ++ path_string fullPath))
      | Some c => Ret (ToolContent c)
      end.

(** [writeFileHandler]. *)
Definition writeFileHandler (fs : fsys) (packageRoot userPath content : string) : HandlerOut * fsys :=
  let fullPath := join packageRoot [userPath] in
  let allowedDir := join packageRoot ["_dev"; "build"; "docs"] in
  if escapes (clean allowedDir) (clean fullPath) then
    (Ret (ToolError "access denied: path outside allowed directory"), fs)
  else
    match os_mkdir_all fs (parent fullPath) with
    | None => (Ret (ToolError ("failed to create directory: " ++ path_string (parent fullPath))), fs)
    | Some fs1 =>
        match os_write_file fs1 fullPath content with
        | None => (Ret (ToolError ("failed to write file: " ++ path_string fullPath)), fs1)
        | Some fs2 =>
            (Ret (ToolContent ("Successfully wrote " ++ itoa (String.length content)
                               ++ " bytes to " ++ userPath)), fs2)
        end
    end.

End Legacy.

(** A package [/pkg] next to [/etc], with a link [/pkg/evil] to
    [/etc/passwd]. *)
Definition fs_example : fsys :=
  [(["pkg"], Dir); (["pkg"; "manifest.yml"], File "name: x"); (["pkg"; "sub"], Dir);
   (["pkg"; "_dev"], Dir); (["pkg"; "_dev"; "build"], Dir);
   (["pkg"; "_dev"; "build"; "docs"], Dir);
   (["pkg"; "evil"], Symlink "/etc/passwd");
   (["etc"], Dir); (["etc"; "passwd"], File "root")].

Example tools_read_traversal :
  Tools.readFileHandler fs_example "/pkg" "../etc/passwd"
  = Ret (ToolError "access denied: path '../etc/passwd' is outside package root").
Proof. vm_compute. reflexivity. Qed.

Example tools_read_link :
  Tools.readFileHandler fs_example "/pkg" "evil"
  = Ret (ToolError "access denied: path 'evil' is outside package root").
Proof. vm_compute. reflexivity. Qed.

Example legacy_read_link :
  Legacy.readFileHandler fs_example "/pkg" "evil" = Ret (ToolContent "root").
Proof. vm_compute. reflexivity. Qed.

Example tools_write_ok :
  fst (Tools.writeFileHandler fs_example "/pkg" "_dev/build/docs/README.md" "hi")
  = Ret (ToolContent "Successfully wrote 2 bytes to _dev/build/docs/README.md")
  /\ os_read_file (snd (Tools.writeFileHandler fs_example "/pkg" "_dev/build/docs/README.md" "hi"))
       ["pkg"; "_dev"; "build"; "docs"; "README.md"] = Some "hi".
Proof. vm_compute. split; reflexivity. Qed.

Example tools_write_denied :
  fst (Tools.writeFileHandler fs_example "/pkg" "manifest.yml" "x")
  = Ret (ToolError "access denied: path 'manifest.yml' is outside allowed directory (_dev/build/docs/)").
Proof. vm_compute. reflexivity. Qed.

Example tools_list :
  Tools.listDirectoryHandler fs_example "/pkg" ""
  = Ret (ToolContent ("Contents of :" ++ String (ascii_of_nat 10) ""
       ++ "  _dev/ (directory)" ++ String (ascii_of_nat 10) ""
       ++ "  evil (file, 11 bytes)" ++ String (ascii_of_nat 10) ""
       ++ "  manifest.yml (file, 7 bytes)" ++ String (ascii_of_nat 10) ""
       ++ "  sub/ (directory)" ++ String (ascii_of_nat 10) "")).
Proof. vm_compute. reflexivity. Qed.

(** ** The managed documentation file *)

(** [DocumentationAgent]: the fields the document store uses. *)
Record DocumentationAgent := mkAgent {
  packageRoot : string;
  targetDocFile : string;
  originalReadmeContent : option string
}.

Definition set_original (d : DocumentationAgent) (o : option string) : DocumentationAgent :=
  mkAgent (packageRoot d) (targetDocFile d) o.

(** [filepath.Join(d.packageRoot, "_dev", "build", "docs", d.targetDocFile)]. *)
Definition docPath (d : DocumentationAgent) : path :=
  join (packageRoot d) ["_dev"; "build"; "docs"; targetDocFile d].

(** [backupOriginalReadme]: when [Stat] succeeds but [ReadFile] fails the
    previous backup is kept. *)
Definition backupOriginalReadme (d : DocumentationAgent) (fs : fsys) : DocumentationAgent :=
  if os_exists fs (docPath d) then
    match os_read_file fs (docPath d) with
    | Some contentStr => set_original d (Some contentStr)
    | None => d
    end
  else set_original d None.

(** [restoreOriginalReadme]: failures are only printed. *)
Definition restoreOriginalReadme (d : DocumentationAgent) (fs : fsys) : fsys :=
  match originalReadmeContent d with
  | Some c => match os_write_file fs (docPath d) c with Some fs' => fs' | None => fs end
  | None => match os_remove fs (docPath d) with Some fs' => fs' | None => fs end
  end.

(** The four results of [handleUserAction]: new prompt, continue, exit,
    error. *)
Definition ActionResult := (string * bool * bool * option string)%type.

(** [handleUserAction].  The accept and request-changes branches talk to
    the terminal and are passed in. *)
Definition handleUserAction
    (handleAcceptAction : bool -> fsys -> ActionResult * fsys)
    (handleRequestChanges : fsys -> ActionResult * fsys)
    (d : DocumentationAgent) (fs : fsys) (action : string) (readmeUpdated : bool)
    : ActionResult * fsys :=
  if String.eqb action "Accept and finalize" then handleAcceptAction readmeUpdated fs
  else if String.eqb action "Request changes" then handleRequestChanges fs
  else if String.eqb action "Cancel" then (("", false, true, None), restoreOriginalReadme d fs)
  else (("", false, false, Some ("unknown action: " ++ action)), fs).

(** [checkReadmeUpdated]. *)
Definition checkReadmeUpdated (d : DocumentationAgent) (fs : fsys) : bool :=
  if negb (os_exists fs (docPath d)) then false
  else match os_read_file fs (docPath d) with
       | None => false
       | Some currentContentStr =>
           match originalReadmeContent d with
           | None => negb (String.eqb currentContentStr "")
           | Some orig => negb (String.eqb currentContentStr orig)
           end
       end.

(** [handleReadmeUpdate]: updated, and the read error if any. *)
Definition handleReadmeUpdate (d : DocumentationAgent) (fs : fsys) : bool * option string :=
  if negb (checkReadmeUpdated d fs) then (false, None)
  else match os_read_file fs (docPath d) with
       | None => (false, Some ("open " ++ path_string (docPath d)))
       | Some content => if String.eqb content "" then (false, None) else (true, None)
       end.

(** [TaskResult]: the fields the orchestrator reads. *)
Record TaskResult := mkTaskResult {
  FinalContent : string;
  Conversation : list ConversationEntry
}.

(** What the unattended loop depends on outside this package:
    [Agent.ExecuteTask] (the model and the tool calls it requests, which
    change the file system, then a result or an error), and the prompt
    [handleTokenLimitResponse] builds from the package manifest (or the
    manifest read error). *)
Record Env := mkEnv {
  executeTask : fsys -> string -> fsys * (TaskResult + string);
  sectionBasedPrompt : string + string
}.

Definition specificPrompt (d : DocumentationAgent) : string :=
  "You haven't updated a " ++ targetDocFile d ++ " file yet. Please create the "
  ++ targetDocFile d ++ " file in the _dev/build/docs/ directory based on your analysis. This is required to complete the task.".

(** [runNonInteractiveMode]: the file system at the end and the returned
    error ([None] for nil).  [executeTaskWithLogging] wraps the error of
    [ExecuteTask] as "agent task failed". *)
Definition runNonInteractiveMode (env : Env) (d : DocumentationAgent) (fs : fsys) (prompt : string)
    : fsys * option string :=
  match executeTask env fs prompt with
  | (fs1, inr e) => (fs1, Some ("agent task failed: " ++ e))
  | (fs1, inl result) =>
      let after_token_limit (fsA : fsys) : fsys * option string :=
        if isTaskResultError (FinalContent result) (Conversation result) then
          (fsA, Some ("LLM agent encountered an error: " ++ FinalContent result))
        else
          let '(updated, err) := handleReadmeUpdate d fsA in
          if updated then (fsA, err)
          else
            match executeTask env fsA (specificPrompt d) with
            | (fsB, inr e) => (fsB, Some ("second attempt failed: agent task failed: " ++ e))
            | (fsB, inl _) =>
                let '(updated2, err2) := handleReadmeUpdate d fsB in
                if updated2 then (fsB, err2)
                else (fsB, Some ("failed to create " ++ targetDocFile d ++ " after two attempts"))
            end
      in
      if isTokenLimitMessage (FinalContent result) then
        match sectionBasedPrompt env with
        | inr e => (fs1, Some ("failed to handle token limit: failed to read package manifest: " ++ e))
        | inl newPrompt =>
            match executeTask env fs1 newPrompt with
            | (fs2, inr e) => (fs2, Some ("section-based retry failed: agent task failed: " ++ e))
            | (fs2, inl _) =>
                let '(updated, err) := handleReadmeUpdate d fs2 in
                if updated then (fs2, err) else after_token_limit fs2
            end
        end
      else after_token_limit fs1
  end.

(** ** Interactive mode *)

(** An answer of the terminal prompts ([tui.AskOne], [tui.AskTextArea]):
    the text chosen or typed, or an error, which may be the user's
    cancellation ([errors.Is(err, tui.ErrCancelled)]). *)
Inductive Answer := Answered (s : string) | AskError (cancelled : bool) (msg : string).

(** The user's answers in one round of the interactive loop: to the error
    prompt, to the action prompt, and to the follow-up prompt of the
    chosen action.  A round only uses the answers to the prompts it shows. *)
Record Round := mkRound {
  error_choice : Answer;
  user_action : Answer;
  follow_up : Answer
}.

(** [handleInteractiveError]: new prompt, continue, error.  The prompt
    [buildRevisionPrompt] builds from the package manifest and the prompt
    files is passed in. *)
Definition handleInteractiveError (buildRevisionPrompt : string -> string) (ans : Answer)
    : string * bool * option string :=
  match ans with
  | AskError _ msg => ("", false, Some ("prompt failed: " ++ msg))
  | Answered errorAction =>
      if String.eqb errorAction "Exit" then ("", false, None)
      else (buildRevisionPrompt "The previous attempt encountered an error. Please try a different approach to analyze the package and create/update the documentation.", true, None)
  end.

(** [handleAcceptAction]: the preserved-section warnings are only
    printed. *)
Definition handleAcceptAction (buildRevisionPrompt : string -> string) (d : DocumentationAgent)
    (ans : Answer) (readmeUpdated : bool) (fs : fsys) : ActionResult * fsys :=
  if readmeUpdated then (("", false, true, None), fs)
  else
    match ans with
    | AskError _ msg => (("", false, false, Some ("prompt failed: " ++ msg)), fs)
    | Answered continueChoice =>
        if String.eqb continueChoice "Exit anyway" then
          (("", false, true, None), restoreOriginalReadme d fs)
        else
          ((buildRevisionPrompt ("You haven't written a " ++ targetDocFile d
              ++ " file yet. Please write the " ++ targetDocFile d
              ++ " file in the _dev/build/docs/ directory based on your analysis."),
            true, false, None), fs)
    end.

(** [handleRequestChanges]. *)
Definition handleRequestChanges (buildRevisionPrompt : string -> string) (ans : Answer)
    (fs : fsys) : ActionResult * fsys :=
  match ans with
  | AskError true _ => (("", true, false, None), fs)
  | AskError false msg => (("", false, false, Some ("prompt failed: " ++ msg)), fs)
  | Answered changes =>
      if is_blank changes then (("", true, false, None), fs)
      else ((buildRevisionPrompt changes, true, false, None), fs)
  end.

(** [readCurrentReadme]. *)
Definition readCurrentReadme (d : DocumentationAgent) (fs : fsys) : option string :=
  os_read_file fs (docPath d).

(** [displayReadmeIfUpdated]: what it returns ([docs.GenerateReadme] and
    the preview only decide what is shown). *)
Definition displayReadmeIfUpdated (d : DocumentationAgent) (fs : fsys) : bool :=
  if negb (checkReadmeUpdated d fs) then false
  else match readCurrentReadme d fs with
       | None => false
       | Some sourceContent => negb (String.eqb sourceContent "")
       end.

(** [runInteractiveMode], one round of answers per iteration of its
    [for] loop: the file system at the end and the returned error, or
    [None] when the rounds run out. *)
Fixpoint runInteractiveMode (env : Env) (buildRevisionPrompt : string -> string)
    (d : DocumentationAgent) (fs : fsys) (prompt : string) (rounds : list Round)
    : option (fsys * option string) :=
  match rounds with
  | [] => None
  | r :: rest =>
      match executeTask env fs prompt with
      | (fs1, inr e) => Some (fs1, Some ("agent task failed: " ++ e))
      | (fs1, inl result) =>
          if isTokenLimitMessage (FinalContent result) then
            match sectionBasedPrompt env with
            | inr e => Some (fs1, Some ("failed to read package manifest: " ++ e))
            | inl newPrompt => runInteractiveMode env buildRevisionPrompt d fs1 newPrompt rest
            end
          else if isTaskResultError (FinalContent result) (Conversation result) then
            match handleInteractiveError buildRevisionPrompt (error_choice r) with
            | (_, _, Some e) => Some (fs1, Some e)
            | (_, false, None) =>
                Some (restoreOriginalReadme d fs1, Some "user chose to exit due to LLM error")
            | (newPrompt, true, None) =>
                runInteractiveMode env buildRevisionPrompt d fs1 newPrompt rest
            end
          else
            let readmeUpdated := displayReadmeIfUpdated d fs1 in
            match user_action r with
            | AskError _ msg => Some (fs1, Some ("prompt failed: " ++ msg))
            | Answered action =>
                match handleUserAction
                        (handleAcceptAction buildRevisionPrompt d (follow_up r))
                        (handleRequestChanges buildRevisionPrompt (follow_up r))
                        d fs1 action readmeUpdated with
                | ((_, _, _, Some e), fs2) => Some (fs2, Some e)
                | ((_, _, true, None), fs2) => Some (fs2, None)
                | ((newPrompt, true, false, None), fs2) =>
                    runInteractiveMode env buildRevisionPrompt d fs2 newPrompt rest
                | ((_, false, false, None), fs2) =>
                    runInteractiveMode env buildRevisionPrompt d fs2 prompt rest
                end
            end
      end
  end.

(** ** MCP tool discovery *)

(** A tool as the agent sees it: name and description (the parameter
    schema and the handler do not matter for discovery). *)
Record Tool := mkTool {
  tool_name : string;
  tool_description : string
}.

(** What an MCP server answers to [MCPServer.Connect]: the connection
    fails, or the session advertises no tools capability, or the tools
    iterator yields tools and iteration errors. *)
Inductive ServerReply :=
  | ConnectFailure (err : string)
  | NoToolsCapability
  | ToolStream (items : list (Tool + string)).

(** An entry of [mcpServers]: whether [url] is set, and the server's
    answer. *)
Record MCPServer := mkServer {
  server_url : option string;
  server_reply : ServerReply
}.

(** Outcome of [Connect]: its error (or nil) and the tools appended to
    [s.Tools]; or the process exits through [log.Fatal]. *)
Inductive ConnectOutcome :=
  | Connected (err : option string) (tools : list Tool)
  | ProcessExit (err : string).

(** The loop over the tools iterator: [log.Fatal] on the first error. *)
Fixpoint collect_tools (items : list (Tool + string)) (acc : list Tool) : ConnectOutcome :=
  match items with
  | [] => Connected None acc
  | inl t :: rest => collect_tools rest (acc ++ [t])
  | inr e :: _ => ProcessExit e
  end.

(** [MCPServer.Connect]. *)
Definition Connect (s : MCPServer) : ConnectOutcome :=
  match server_reply s with
  | ConnectFailure e => Connected (Some e) []
  | NoToolsCapability => Connected None []
  | ToolStream items => collect_tools items []
  end.

(** [MCPTools] over the decoded [mcpServers] map: the tools of each
    server, or [None] when the process has exited. *)
Fixpoint MCPTools (servers : list (string * MCPServer)) : option (list (string * list Tool)) :=
  match servers with
  | [] => Some []
  | (key, value) :: rest =>
      match server_url value with
      | None => option_map (fun r => (key, []) :: r) (MCPTools rest)
      | Some _ =>
          match Connect value with
          | ProcessExit _ => None
          | Connected _ tools => option_map (fun r => (key, tools) :: r) (MCPTools rest)
          end
      end
  end.

(** The local tools of the [llmagent] package. *)
Definition PackageTools : list Tool :=
  [mkTool "list_directory" "List files and directories in a given path within the package";
   mkTool "read_file" "Read the contents of a file within the package.";
   mkTool "write_file" "Write content to a file within the package. This tool can only write in _dev/build/docs/.";
   mkTool "get_readme_template" "Get the README.md template that should be used as the structure for generating package documentation. This template contains the required sections and format.";
   mkTool "get_example_readme" "Get a high-quality example README.md that demonstrates the target quality, level of detail, and formatting. Use this as a reference for style and content structure."].

(** The tool list of [NewDocumentationAgent] in the README agent: the
    servers' tools, then the local tools; [None] when the process exited
    during discovery.  (The caller ranges over a field [Inner] that
    [MCPJson] does not declare; the servers are read from [mcpServers].)
    [config] is [None] when [MCPTools] returns nil (no configuration file). *)
Definition agentTools (config : option (list (string * MCPServer))) : option (list Tool) :=
  match config with
  | None => Some PackageTools
  | Some servers =>
      match MCPTools servers with
      | None => None
      | Some per_server => Some (flat_map snd per_server ++ PackageTools)%list
      end
  end.

(** ** Example runs *)

(** An agent for [fs_example] with no backup taken yet. *)
Definition agent_example : DocumentationAgent := mkAgent "/pkg" "README.md" None.

(** An agent task that writes a partial document and then replies with an
    error phrase; the manifest cannot be read. *)
Definition env_partial_write : Env :=
  mkEnv (fun fs _ =>
           (match os_write_file fs (docPath agent_example) "partial" with
            | Some fs' => fs'
            | None => fs
            end,
            inl (mkTaskResult "I encountered an error while writing the file." [])))
        (inr "open manifest.yml: no such file or directory").

(** A configuration with a server that answers and one whose tools
    iterator fails. *)
Definition servers_example : list (string * MCPServer) :=
  [("docs", mkServer (Some "http://localhost:8080")
              (ToolStream [inl (mkTool "search_docs" "Search the documentation")]));
   ("flaky", mkServer (Some "http://localhost:9090")
               (ToolStream [inr "unexpected EOF"]))].

(** A configuration with a server that answers and one that cannot be
    reached. *)
Definition servers_unreachable : list (string * MCPServer) :=
  [("docs", mkServer (Some "http://localhost:8080")
              (ToolStream [inl (mkTool "search_docs" "Search the documentation")]));
   ("down", mkServer (Some "http://localhost:9090")
              (ConnectFailure "connection refused"))].

(** A package whose [_dev/build/docs/ext] is a link to the directory
    [/tmp], outside the package. *)
Definition fs_link_out : fsys :=
  [(["pkg"], Dir); (["pkg"; "_dev"], Dir); (["pkg"; "_dev"; "build"], Dir);
   (["pkg"; "_dev"; "build"; "docs"], Dir);
   (["pkg"; "_dev"; "build"; "docs"; "ext"], Symlink "/tmp");
   (["tmp"], Dir)].

(** A package whose [_dev/build/docs/out] is a link to [/pkg/data], a
    directory of the package outside [_dev/build/docs]. *)
Definition fs_link_in : fsys :=
  [(["pkg"], Dir); (["pkg"; "_dev"], Dir); (["pkg"; "_dev"; "build"], Dir);
   (["pkg"; "_dev"; "build"; "docs"], Dir);
   (["pkg"; "_dev"; "build"; "docs"; "out"], Symlink "/pkg/data");
   (["pkg"; "data"], Dir); (["pkg"; "data"; "manifest.yml"], File "orig")].

(** A package with generated documentation under [docs/] and a knowledge
    base under [docs/knowledge_base/]. *)
Definition fs_docs : fsys :=
  [(["pkg"], Dir); (["pkg"; "docs"], Dir); (["pkg"; "docs"; "README.md"], File "generated");
   (["pkg"; "docs"; "knowledge_base"], Dir);
   (["pkg"; "docs"; "knowledge_base"; "kb.md"], File "kb")].

(** Every proper prefix of [p] is a directory (not a link). *)
Definition dirs_along (fs : fsys) (p : path) : bool :=
  forallb (fun k => is_dir_node (fs_lookup fs (firstn k p))) (seq 1 (length p - 1)).

(** [p] names a regular file (not a link). *)
Definition is_file_at (fs : fsys) (p : path) : bool :=
  match p with
  | [] => false
  | _ => match fs_lookup fs p with Some (File _) => true | _ => false end
  end.

(** * Properties *)

Open Scope nat_scope.

(** ** Reply classifier *)

(** A tool result carrying a success phrase, and an entry that the
    backward scan of [hasRecentSuccessfulTools] steps over. *)
Definition is_success_result (ph : ToolPhrases) (e : ConversationEntry) : bool :=
  String.eqb (entry_type e) "tool_result"
  && matches_any (to_lower (entry_content e)) (success_phrases ph).

Definition is_neutral (ph : ToolPhrases) (e : ConversationEntry) : bool :=
  negb (String.eqb (entry_type e) "tool_result")
  || (negb (matches_any (to_lower (entry_content e)) (success_phrases ph))
      && negb (matches_any (to_lower (entry_content e)) (failure_phrases ph))).

Lemma scan_recent_true ph es :
  scan_recent ph es = true <->
  exists pre e post, es = (pre ++ e :: post)%list
                     /\ Forall (fun x => is_neutral ph x = true) pre
                     /\ is_success_result ph e = true.
Proof.
  induction es as [|x es IH]; simpl.
  - split; [discriminate|]. intros (pre & e & post & Heq & _). destruct pre; discriminate.
  - unfold is_success_result, is_neutral.
    destruct (String.eqb (entry_type x) "tool_result") eqn:Ht; simpl.
    + destruct (matches_any (to_lower (entry_content x)) (success_phrases ph)) eqn:Hs.
      * split; [intros _|reflexivity]. exists [], x, es. simpl. rewrite Ht, Hs. auto.
      * destruct (matches_any (to_lower (entry_content x)) (failure_phrases ph)) eqn:Hf.
        -- split; [discriminate|]. intros (pre & e & post & Heq & Hpre & He).
           destruct pre as [|y pre]; simpl in Heq; injection Heq as <- Heq.
           ++ rewrite Ht, Hs in He. discriminate.
           ++ inversion Hpre as [|? ? Hy]; subst. rewrite Ht, Hs, Hf in Hy. discriminate.
        -- rewrite IH. split.
           ++ intros (pre & e & post & Heq & Hpre & He). exists (x :: pre), e, post.
              subst. repeat split; auto. constructor; auto. rewrite Ht, Hs, Hf. reflexivity.
           ++ intros (pre & e & post & Heq & Hpre & He).
              destruct pre as [|y pre]; simpl in Heq; injection Heq as <- Heq.
              ** rewrite Ht, Hs in He. discriminate.
              ** inversion Hpre; subst. exists pre, e, post. auto.
    + rewrite IH. split.
      * intros (pre & e & post & Heq & Hpre & He). exists (x :: pre), e, post.
        subst. repeat split; auto. constructor; auto. rewrite Ht. reflexivity.
      * intros (pre & e & post & Heq & Hpre & He).
        destruct pre as [|y pre]; simpl in Heq; injection Heq as <- Heq.
        -- rewrite Ht in He. discriminate.
        -- inversion Hpre; subst. exists pre, e, post. auto.
Qed.

(** The window of [hasRecentSuccessfulTools] is the last five entries. *)
Lemma recent_window (older recent : list ConversationEntry) :
  length recent <= 5 -> (older = [] \/ length recent = 5) ->
  firstn 5 (rev (older ++ recent)) = rev recent.
Proof.
  intros Hle Hor. rewrite rev_app_distr.
  destruct Hor as [-> | H5].
  - rewrite app_nil_r. apply firstn_all2. rewrite length_rev. lia.
  - rewrite firstn_app. rewrite length_rev, H5.
    replace (5 - 5) with 0 by lia. rewrite firstn_O, app_nil_r.
    apply firstn_all2. rewrite length_rev. lia.
Qed.

Lemma hasRecent_window ph older recent :
  length recent <= 5 -> (older = [] \/ length recent = 5) ->
  hasRecentSuccessfulTools ph (older ++ recent) = true <->
  exists pre e post, recent = (pre ++ e :: post)%list
                     /\ is_success_result ph e = true
                     /\ Forall (fun x => is_neutral ph x = true) post.
Proof.
  intros Hle Hor. unfold hasRecentSuccessfulTools.
  rewrite (recent_window older recent Hle Hor), scan_recent_true.
  split.
  - intros (pre & e & post & Heq & Hpre & He).
    exists (rev post), e, (rev pre). split; [|split; auto].
    + rewrite <- (rev_involutive recent), Heq. rewrite rev_app_distr. simpl.
      rewrite <- app_assoc. reflexivity.
    + apply Forall_rev. exact Hpre.
  - intros (pre & e & post & Heq & He & Hpost).
    exists (rev post), e, (rev pre). split; [|split; auto].
    + subst recent. rewrite rev_app_distr. simpl. rewrite <- app_assoc. reflexivity.
    + apply Forall_rev. exact Hpost.
Qed.

(** Bytes that are ASCII letters. *)
Definition is_letter (c : ascii) : bool :=
  let n := nat_of_ascii c in ((65 <=? n) && (n <=? 90)) || ((97 <=? n) && (n <=? 122)).

Fixpoint has_letter (s : string) : bool :=
  match s with
  | EmptyString => false
  | String c r => is_letter c || has_letter r
  end.

Lemma prefix_letter sub s :
  String.prefix sub s = true -> has_letter sub = true -> has_letter s = true.
Proof.
  revert s. induction sub as [|c sub IH]; intros s Hp Hl; [discriminate|].
  destruct s as [|c' s]; [discriminate|]. simpl in Hp.
  destruct (ascii_dec c c') as [<-|]; [|discriminate].
  simpl in Hl |- *. apply orb_true_iff in Hl as [Hl|Hl].
  - rewrite Hl. reflexivity.
  - rewrite (IH s Hp Hl). apply orb_true_r.
Qed.

Lemma contains_letter s sub :
  contains s sub = true -> has_letter sub = true -> has_letter s = true.
Proof.
  induction s as [|c s IH]; intros Hc Hl.
  - destruct sub; [discriminate|]. discriminate.
  - change ((String.prefix sub (String c s) || contains s sub) = true) in Hc.
    apply orb_true_iff in Hc as [Hp|Hc].
    + exact (prefix_letter _ _ Hp Hl).
    + simpl. rewrite (IH Hc Hl). apply orb_true_r.
Qed.

Lemma ascii_of_nat_nat n : n < 256 -> nat_of_ascii (ascii_of_nat n) = n.
Proof. intros H. apply nat_ascii_embedding. exact H. Qed.

Lemma has_letter_cons c r : has_letter (String c r) = is_letter c || has_letter r.
Proof. reflexivity. Qed.

Lemma small_not_letter c : nat_of_ascii c <= 32 -> is_letter c = false.
Proof.
  intros H. unfold is_letter. cbv zeta.
  destruct (65 <=? nat_of_ascii c) eqn:E1; [apply Nat.leb_le in E1; lia|].
  destruct (97 <=? nat_of_ascii c) eqn:E2; [apply Nat.leb_le in E2; lia|].
  reflexivity.
Qed.

Lemma big_not_letter c : 128 <= nat_of_ascii c -> is_letter c = false.
Proof.
  intros H. unfold is_letter. cbv zeta.
  destruct (nat_of_ascii c <=? 90) eqn:E1; [apply Nat.leb_le in E1; lia|].
  destruct (nat_of_ascii c <=? 122) eqn:E2; [apply Nat.leb_le in E2; lia|].
  rewrite !andb_false_r. reflexivity.
Qed.

Lemma to_lower_cons c rest : to_lower (String c rest) =
  let n := nat_of_ascii c in
  if (65 <=? n) && (n <=? 90) then String (ascii_of_nat (n + 32)) (to_lower rest)
  else if (n =? 195) then
    match rest with
    | String c2 rest2 =>
        let m := nat_of_ascii c2 in
        if (128 <=? m) && (m <=? 158) && negb (m =? 151)
        then String c (String (ascii_of_nat (m + 32)) (to_lower rest2))
        else String c (to_lower rest)
    | EmptyString => String c EmptyString
    end
  else String c (to_lower rest).
Proof. reflexivity. Qed.

Lemma to_lower_letter_len n : forall s,
  String.length s <= n -> has_letter (to_lower s) = true -> has_letter s = true.
Proof.
  induction n as [|n IH]; intros s Hlen H.
  - destruct s; [discriminate|simpl in Hlen; lia].
  - destruct s as [|c rest]; [discriminate|]. simpl in Hlen.
    rewrite to_lower_cons in H. cbv zeta in H. rewrite has_letter_cons.
    destruct ((65 <=? nat_of_ascii c) && (nat_of_ascii c <=? 90)) eqn:Hup;
      cbv beta iota in H.
    + unfold is_letter. cbv zeta. rewrite Hup. reflexivity.
    + destruct (nat_of_ascii c =? 195) eqn:H195; cbv beta iota in H.
      * destruct rest as [|c2 rest2]; cbv beta iota in H.
        -- rewrite has_letter_cons in H. exact H.
        -- destruct ((128 <=? nat_of_ascii c2) && (nat_of_ascii c2 <=? 158)
                     && negb (nat_of_ascii c2 =? 151)) eqn:Hl1; cbv beta iota in H.
           ++ rewrite !has_letter_cons in H. rewrite has_letter_cons.
              apply orb_true_iff in H as [H|H]; [rewrite H; reflexivity|].
              apply orb_true_iff in H as [H|H].
              ** exfalso.
                 apply andb_true_iff in Hl1 as [Hl1 _]. apply andb_true_iff in Hl1 as [Hl1 Hl2].
                 apply Nat.leb_le in Hl1. apply Nat.leb_le in Hl2.
                 rewrite big_not_letter in H; [discriminate|].
                 rewrite ascii_of_nat_nat; lia.
              ** simpl in Hlen. rewrite (IH rest2 ltac:(lia) H). rewrite !orb_true_r. reflexivity.
           ++ rewrite has_letter_cons in H.
              apply orb_true_iff in H as [H|H]; [rewrite H; reflexivity|].
              rewrite (IH (String c2 rest2) ltac:(simpl in *; lia) H). apply orb_true_r.
      * rewrite has_letter_cons in H.
        apply orb_true_iff in H as [H|H]; [rewrite H; reflexivity|].
        rewrite (IH rest ltac:(lia) H). apply orb_true_r.
Qed.

Lemma to_lower_letter s : has_letter (to_lower s) = true -> has_letter s = true.
Proof. apply (to_lower_letter_len (String.length s)). lia. Qed.

Lemma is_blank_cons c rest : is_blank (String c rest) =
  let n := nat_of_ascii c in
  if ((9 <=? n) && (n <=? 13)) || (n =? 32) then is_blank rest
  else if (n =? 194) then
    match rest with
    | String c2 rest2 =>
        if byte_is c2 133 || byte_is c2 160 then is_blank rest2 else false
    | EmptyString => false
    end
  else if (n =? 225) then
    match rest with
    | String c2 (String c3 rest3) =>
        if byte_is c2 154 && byte_is c3 128 then is_blank rest3 else false
    | _ => false
    end
  else if (n =? 226) then
    match rest with
    | String c2 (String c3 rest3) =>
        let m3 := nat_of_ascii c3 in
        if (byte_is c2 128 && (((128 <=? m3) && (m3 <=? 138)) || (m3 =? 168)
                               || (m3 =? 169) || (m3 =? 175)))
           || (byte_is c2 129 && (m3 =? 159))
        then is_blank rest3 else false
    | _ => false
    end
  else if (n =? 227) then
    match rest with
    | String c2 (String c3 rest3) =>
        if byte_is c2 128 && byte_is c3 128 then is_blank rest3 else false
    | _ => false
    end
  else false.
Proof. reflexivity. Qed.

Lemma blank_no_letter_len n : forall s,
  String.length s <= n -> is_blank s = true -> has_letter s = false.
Proof.
  induction n as [|n IH]; intros s Hlen H.
  - destruct s; [reflexivity|simpl in Hlen; lia].
  - destruct s as [|c rest]; [reflexivity|]. simpl in Hlen.
    rewrite is_blank_cons in H. cbv zeta in H. rewrite has_letter_cons.
    destruct (((9 <=? nat_of_ascii c) && (nat_of_ascii c <=? 13))
              || (nat_of_ascii c =? 32)) eqn:Hws; cbv beta iota in H.
    + rewrite (IH rest ltac:(lia) H), orb_false_r. apply small_not_letter.
      apply orb_true_iff in Hws as [Hws|Hws].
      * apply andb_true_iff in Hws as [_ Hws]. apply Nat.leb_le in Hws. lia.
      * apply Nat.eqb_eq in Hws. lia.
    + destruct (nat_of_ascii c =? 194) eqn:H194; cbv beta iota in H.
      { apply Nat.eqb_eq in H194.
        destruct rest as [|c2 rest2]; cbv beta iota in H; [discriminate|].
        destruct (byte_is c2 133 || byte_is c2 160) eqn:Hb; cbv beta iota in H; [|discriminate].
        simpl in Hlen. rewrite has_letter_cons, (IH rest2 ltac:(lia) H), orb_false_r.
        unfold byte_is in Hb.
        apply orb_true_iff in Hb as [Hb|Hb]; apply Nat.eqb_eq in Hb;
          rewrite !big_not_letter by lia; reflexivity. }
      destruct (nat_of_ascii c =? 225) eqn:H225; cbv beta iota in H.
      { apply Nat.eqb_eq in H225.
        destruct rest as [|c2 [|c3 rest3]]; cbv beta iota in H; try discriminate.
        destruct (byte_is c2 154 && byte_is c3 128) eqn:Hb; cbv beta iota in H; [|discriminate].
        apply andb_true_iff in Hb as [Hb1 Hb2]. unfold byte_is in Hb1, Hb2.
        apply Nat.eqb_eq in Hb1. apply Nat.eqb_eq in Hb2.
        simpl in Hlen. rewrite !has_letter_cons, (IH rest3 ltac:(lia) H), orb_false_r.
        rewrite !big_not_letter by lia. reflexivity. }
      destruct (nat_of_ascii c =? 226) eqn:H226; cbv beta iota in H.
      { apply Nat.eqb_eq in H226.
        destruct rest as [|c2 [|c3 rest3]]; cbv beta iota in H; try discriminate.
        cbv zeta in H.
        match type of H with (if ?b then _ else _) = true => destruct b eqn:Hb end;
          [|discriminate].
        assert (Hc2 : 128 <= nat_of_ascii c2).
        { unfold byte_is in Hb.
          apply orb_true_iff in Hb as [Hb|Hb]; apply andb_true_iff in Hb as [Hb _];
            apply Nat.eqb_eq in Hb; lia. }
        assert (Hc3 : 128 <= nat_of_ascii c3).
        { apply orb_true_iff in Hb as [Hb|Hb]; apply andb_true_iff in Hb as [_ Hb].
          - repeat (apply orb_true_iff in Hb as [Hb|Hb]);
              try (apply Nat.eqb_eq in Hb; lia).
            apply andb_true_iff in Hb as [Ha _]. apply Nat.leb_le in Ha. lia.
          - apply Nat.eqb_eq in Hb. lia. }
        simpl in Hlen. rewrite !has_letter_cons, (IH rest3 ltac:(lia) H), orb_false_r.
        rewrite !big_not_letter by lia. reflexivity. }
      destruct (nat_of_ascii c =? 227) eqn:H227; cbv beta iota in H.
      { apply Nat.eqb_eq in H227.
        destruct rest as [|c2 [|c3 rest3]]; cbv beta iota in H; try discriminate.
        destruct (byte_is c2 128 && byte_is c3 128) eqn:Hb; cbv beta iota in H; [|discriminate].
        apply andb_true_iff in Hb as [Hb1 Hb2]. unfold byte_is in Hb1, Hb2.
        apply Nat.eqb_eq in Hb1. apply Nat.eqb_eq in Hb2.
        simpl in Hlen. rewrite !has_letter_cons, (IH rest3 ltac:(lia) H), orb_false_r.
        rewrite !big_not_letter by lia. reflexivity. }
      discriminate.
Qed.

Lemma blank_no_letter s : is_blank s = true -> has_letter s = false.
Proof. apply (blank_no_letter_len (String.length s)). lia. Qed.

(** A reply with an error phrase is not blank. *)
Lemma error_indicator_not_blank content :
  hasErrorIndicator content = true -> is_blank content = false.
Proof.
  unfold hasErrorIndicator. intros H.
  apply existsb_exists in H as (ind & Hin & Hc).
  assert (Hl : has_letter (to_lower ind) = true).
  { simpl in Hin. repeat (destruct Hin as [<-|Hin]; [vm_compute; reflexivity|]). destruct Hin. }
  pose proof (to_lower_letter _ (contains_letter _ _ Hc Hl)) as Hs.
  destruct (is_blank content) eqn:Hb; [|reflexivity].
  rewrite (blank_no_letter _ Hb) in Hs. discriminate.
Qed.

(** For a reply with an error phrase and no length-limit phrase, the
    classification is decided by [hasRecentSuccessfulTools] alone. *)
Lemma classify_error_reply ph content conv :
  hasErrorIndicator content = true -> isTokenLimitMessage content = false ->
  classify_reply_with ph content conv
  = if hasRecentSuccessfulTools ph conv then Success else ErrorLike.
Proof.
  intros He Ht. unfold classify_reply_with, isTaskResultError_with.
  rewrite Ht, (error_indicator_not_blank _ He), He. simpl.
  destruct (hasRecentSuccessfulTools ph conv); reflexivity.
Qed.

Lemma failed_to_indicator content :
  contains (to_lower content) (to_lower "I failed to") = true ->
  hasErrorIndicator content = true.
Proof.
  intros H. unfold hasErrorIndicator. apply existsb_exists.
  exists "I failed to". split; [|exact H].
  unfold errorIndicators. repeat first [left; reflexivity | right].
Qed.

Lemma success_wrote_result ph e :
  In "successfully wrote" (success_phrases ph) ->
  entry_type e = "tool_result" ->
  contains (to_lower (entry_content e)) "successfully wrote" = true ->
  is_success_result ph e = true.
Proof.
  intros Hin Ht Hc. unfold is_success_result, matches_any.
  rewrite Ht. simpl. apply existsb_exists. eauto.
Qed.

Lemma not_tool_result_neutral ph x :
  entry_type x <> "tool_result" -> is_neutral ph x = true.
Proof.
  intros H. unfold is_neutral. apply String.eqb_neq in H. rewrite H. reflexivity.
Qed.








(** ** Preservation check *)

Lemma str_app_cancel_l (p a b : string) : (p ++ a = p ++ b)%string -> a = b.
Proof.
  induction p as [|c p IH]; simpl; intros H; [exact H|].
  injection H as H. exact (IH H).
Qed.

Lemma str_length_app (a b : string) :
  String.length (a ++ b)%string = String.length a + String.length b.
Proof. induction a as [|c a IH]; simpl; [reflexivity|rewrite IH; reflexivity]. Qed.

Lemma str_app_cancel_r (a b s : string) : (a ++ s = b ++ s)%string -> a = b.
Proof.
  revert b. induction a as [|c a IH]; intros [|c' b]; simpl; intros H.
  - reflexivity.
  - exfalso. apply (f_equal String.length) in H. simpl in H.
    rewrite str_length_app in H. lia.
  - exfalso. apply (f_equal String.length) in H. simpl in H.
    rewrite str_length_app in H. lia.
  - injection H as -> H. f_equal. exact (IH b H).
Qed.

Lemma preservation_warning_inj (a b : string) :
  preservation_warning a = preservation_warning b -> a = b.
Proof.
  unfold preservation_warning. intros H.
  apply str_app_cancel_l in H. exact (str_app_cancel_r _ _ _ H).
Qed.

Lemma map_set_keys k v (m : smap) x :
  In x (map fst (map_set k v m)) <-> x = k \/ In x (map fst m).
Proof.
  induction m as [|[k' v'] m IH]; simpl.
  - split; intros Hx; repeat destruct Hx as [Hx|Hx]; subst; auto.
  - destruct (String.eqb k k') eqn:E; simpl.
    + apply String.eqb_eq in E. subst.
      split; intros Hx; repeat destruct Hx as [Hx|Hx]; subst; auto.
    + rewrite IH. tauto.
Qed.

Lemma map_set_nodup k v (m : smap) :
  NoDup (map fst m) -> NoDup (map fst (map_set k v m)).
Proof.
  induction m as [|[k' v'] m IH]; simpl; intros H.
  - constructor; [intros []|constructor].
  - destruct (String.eqb k k') eqn:E; simpl.
    + apply String.eqb_eq in E. subst. exact H.
    + inversion H as [|? ? Hnot Hnd]; subst. constructor; [|exact (IH Hnd)].
      rewrite map_set_keys. intros [Heq|Hin]; [|contradiction].
      apply String.eqb_neq in E. congruence.
Qed.

Lemma extract_marker_nodup fuel content mk :
  forall startIdx sectionNum sections,
  NoDup (map fst sections) ->
  NoDup (map fst (extract_marker fuel content mk startIdx sectionNum sections)).
Proof.
  induction fuel as [|fuel IH]; intros startIdx sectionNum sections H; simpl; [exact H|].
  destruct (index (suffix_from startIdx content) (marker_start mk)) as [s0|]; [|exact H].
  destruct (index (suffix_from (s0 + startIdx) content) (marker_end mk)) as [e0|]; [|exact H].
  apply IH. apply map_set_nodup. exact H.
Qed.

(** The map built by [extractPreservedSections] has one entry per key. *)
Lemma extract_nodup markers content :
  NoDup (map fst (extractPreservedSections_with markers content)).
Proof.
  unfold extractPreservedSections_with.
  assert (Hgen : forall ms acc, NoDup (map fst acc) ->
            NoDup (map fst (fold_left (fun sections mk =>
               extract_marker (S (String.length content)) content mk 0 1 sections) ms acc))).
  { induction ms as [|mk ms IH]; intros acc H; [exact H|].
    apply IH. apply extract_marker_nodup. exact H. }
  apply Hgen. constructor.
Qed.

Lemma collect_warnings_cons newContent k c secs :
  collect_warnings newContent ((k, c) :: secs)
  = ((if negb (contains newContent c) then [preservation_warning k] else [])
     ++ collect_warnings newContent secs)%list.
Proof. reflexivity. Qed.

Lemma collect_count_absent newContent secs k :
  ~ In k (map fst secs) ->
  count_occ string_dec (collect_warnings newContent secs) (preservation_warning k) = 0.
Proof.
  induction secs as [|[k' c] secs IH]; intros Hn; [reflexivity|].
  rewrite collect_warnings_cons, count_occ_app.
  rewrite IH by (intros H; apply Hn; right; exact H).
  destruct (negb (contains newContent c)); [|reflexivity].
  rewrite count_occ_cons_neq; [reflexivity|].
  intros E. apply preservation_warning_inj in E. apply Hn. left. exact E.
Qed.

Lemma collect_count newContent secs k R :
  NoDup (map fst secs) -> In (k, R) secs ->
  count_occ string_dec (collect_warnings newContent secs) (preservation_warning k)
  = if contains newContent R then 0 else 1.
Proof.
  induction secs as [|[k' c] secs IH]; intros Hnd Hin; [destruct Hin|].
  simpl in Hnd, Hin. inversion Hnd as [|? ? Hnot Hnd']; subst.
  rewrite collect_warnings_cons, count_occ_app. destruct Hin as [Heq|Hin].
  - injection Heq as -> ->. rewrite collect_count_absent by exact Hnot.
    destruct (contains newContent R); cbn [negb]; [reflexivity|].
    rewrite count_occ_cons_eq by reflexivity. reflexivity.
  - rewrite (IH Hnd' Hin).
    assert (Hk : k' <> k).
    { intros ->. apply Hnot. apply in_map_iff. exists (k, R). auto. }
    destruct (negb (contains newContent c)); [|reflexivity].
    rewrite count_occ_cons_neq; [reflexivity|].
    intros E. apply preservation_warning_inj in E. contradiction.
Qed.

(** C7: for every entry (key [k], region text [R]) that
    [extractPreservedSections] takes from the original content, the warnings
    of [validatePreservedSections] over (original, new) name [k] no time when
    the new content contains [R], and exactly once when it does not.  Stated
    for any list of marker pairs, so it covers both versions of the code. *)
Theorem preservation_warning_count (markers : list Marker)
    (originalContent newContent k R : string) :
  In (k, R) (extractPreservedSections_with markers originalContent) ->
  count_occ string_dec (validatePreservedSections_with markers originalContent newContent)
    (preservation_warning k)
  = if contains newContent R then 0 else 1.
Proof.
  intros Hin. unfold validatePreservedSections_with.
  apply collect_count; [apply extract_nodup|exact Hin].
Qed.

Lemma preservation_warning_count_witness :
  In ("PRESERVE-1", "<!-- PRESERVE START -->x<!-- PRESERVE END -->")
     (extractPreservedSections "a<!-- PRESERVE START -->x<!-- PRESERVE END -->b")
  /\ count_occ string_dec
       (validatePreservedSections "a<!-- PRESERVE START -->x<!-- PRESERVE END -->b" "new text")
       (preservation_warning "PRESERVE-1") = 1.
Proof.
  assert (H : In ("PRESERVE-1", "<!-- PRESERVE START -->x<!-- PRESERVE END -->")
     (extractPreservedSections "a<!-- PRESERVE START -->x<!-- PRESERVE END -->b"))
    by (vm_compute; left; reflexivity).
  split; [exact H|]. unfold validatePreservedSections.
  rewrite (preservation_warning_count preserve_markers _ "new text" _ _ H).
  vm_compute. reflexivity.
Defined.

(** ** Unattended mode *)

Ltac last_task_cases :=
  repeat match goal with
  | |- context [executeTask ?env ?f ?p] =>
      let E := fresh "E" in
      let fsx := fresh "fs" in
      let r := fresh "r" in
      destruct (executeTask env f p) as [fsx r] eqn:E;
      assert (exists f0 p0, fsx = fst (executeTask env f0 p0))
        by (exists f, p; rewrite E; reflexivity)
  | |- context [handleReadmeUpdate ?d ?f] =>
      let u := fresh "u" in
      let er := fresh "er" in
      destruct (handleReadmeUpdate d f) as [u er]
  | |- context [if ?b then _ else _] => destruct b
  | |- context [match ?x with inl _ => _ | inr _ => _ end] => destruct x
  end;
  cbn [fst];
  match goal with
  | H : exists f0 p0, ?x = _ |- exists f p, ?x = _ => exact H
  end.



(** ** MCP discovery *)

(** The tools a server contributes, and whether its tools iterator
    yields no error. *)
Definition stream_tools (items : list (Tool + string)) : list Tool :=
  flat_map (fun i => match i with inl t => [t] | inr _ => [] end) items.

Definition stream_ok (items : list (Tool + string)) : bool :=
  forallb (fun i => match i with inl _ => true | inr _ => false end) items.

Definition server_tools (s : MCPServer) : list Tool :=
  match server_url s, server_reply s with
  | Some _, ToolStream items => stream_tools items
  | _, _ => []
  end.

Definition server_ok (s : MCPServer) : bool :=
  match server_url s, server_reply s with
  | Some _, ToolStream items => stream_ok items
  | _, _ => true
  end.

Lemma collect_tools_ok items : forall acc,
  stream_ok items = true ->
  collect_tools items acc = Connected None (acc ++ stream_tools items)%list.
Proof.
  induction items as [|[t|e] items IH]; intros acc H; simpl in *.
  - rewrite app_nil_r. reflexivity.
  - rewrite IH by exact H. rewrite <- app_assoc. reflexivity.
  - discriminate H.
Qed.

Lemma collect_tools_fail items : forall acc,
  stream_ok items = false -> exists e, collect_tools items acc = ProcessExit e.
Proof.
  induction items as [|[t|e] items IH]; intros acc H; simpl in *.
  - discriminate H.
  - exact (IH _ H).
  - exists e. reflexivity.
Qed.

Lemma MCPTools_ok servers :
  forallb (fun ks => server_ok (snd ks)) servers = true ->
  MCPTools servers = Some (map (fun ks => (fst ks, server_tools (snd ks))) servers).
Proof.
  induction servers as [|[key [url reply]] servers IH]; simpl; intros H; [reflexivity|].
  apply andb_true_iff in H as [Hs Hr]. rewrite (IH Hr).
  unfold server_ok, server_tools in Hs |- *. simpl in Hs |- *.
  destruct url as [u|]; [|reflexivity].
  unfold Connect. simpl.
  destruct reply as [e| |items]; try reflexivity.
  rewrite collect_tools_ok by exact Hs. reflexivity.
Qed.

Lemma MCPTools_fail servers :
  existsb (fun ks => negb (server_ok (snd ks))) servers = true ->
  MCPTools servers = None.
Proof.
  induction servers as [|[key [url reply]] servers IH]; simpl; intros H; [discriminate H|].
  apply orb_true_iff in H as [Hs|Hr].
  - unfold server_ok in Hs. simpl in Hs.
    destruct url as [u|]; [|discriminate Hs].
    destruct reply as [e| |items]; try discriminate Hs.
    unfold Connect. simpl.
    apply negb_true_iff in Hs.
    destruct (collect_tools_fail items [] Hs) as [e He]. rewrite He. reflexivity.
  - rewrite (IH Hr).
    destruct url as [u|]; [|reflexivity].
    destruct (Connect (mkServer (Some u) reply)); reflexivity.
Qed.




(** ** Package tools *)

(** C1: a write through a link of [_dev/build/docs] to a directory outside
    the package root is accepted by both versions of [write_file], and
    creates [/tmp/new.md], which lies outside the root [/pkg].  Besides, a
    [..] component that stays inside the root is accepted: [read_file] of
    [sub/../manifest.yml] reads [/pkg/manifest.yml]. *)
Theorem write_through_link_escapes_root :
  Tools.readFileHandler fs_example "/pkg" "sub/../manifest.yml" = Ret (ToolContent "name: x")
  /\ fst (Tools.writeFileHandler fs_link_out "/pkg" "_dev/build/docs/ext/new.md" "x")
  = Ret (ToolContent "Successfully wrote 1 bytes to _dev/build/docs/ext/new.md")
  /\ fst (Legacy.writeFileHandler fs_link_out "/pkg" "_dev/build/docs/ext/new.md" "x")
     = Ret (ToolContent "Successfully wrote 1 bytes to _dev/build/docs/ext/new.md")
  /\ escapes ["pkg"] ["tmp"; "new.md"] = true
  /\ os_exists fs_link_out ["tmp"; "new.md"] = false
  /\ os_read_file (snd (Tools.writeFileHandler fs_link_out "/pkg"
                         "_dev/build/docs/ext/new.md" "x")) ["tmp"; "new.md"] = Some "x"
  /\ os_read_file (snd (Legacy.writeFileHandler fs_link_out "/pkg"
                         "_dev/build/docs/ext/new.md" "x")) ["tmp"; "new.md"] = Some "x".
Proof. repeat split; vm_compute; reflexivity. Qed.

(** C2: a write through a link of [_dev/build/docs] to another directory
    of the package is accepted by both versions of [write_file], and
    overwrites [/pkg/data/manifest.yml], which lies outside
    [/pkg/_dev/build/docs]. *)
Theorem write_through_link_escapes_allowed_dir :
  fst (Tools.writeFileHandler fs_link_in "/pkg" "_dev/build/docs/out/manifest.yml" "X")
  = Ret (ToolContent "Successfully wrote 1 bytes to _dev/build/docs/out/manifest.yml")
  /\ fst (Legacy.writeFileHandler fs_link_in "/pkg" "_dev/build/docs/out/manifest.yml" "X")
     = Ret (ToolContent "Successfully wrote 1 bytes to _dev/build/docs/out/manifest.yml")
  /\ escapes ["pkg"; "_dev"; "build"; "docs"] ["pkg"; "data"; "manifest.yml"] = true
  /\ os_read_file fs_link_in ["pkg"; "data"; "manifest.yml"] = Some "orig"
  /\ os_read_file (snd (Tools.writeFileHandler fs_link_in "/pkg"
                         "_dev/build/docs/out/manifest.yml" "X"))
       ["pkg"; "data"; "manifest.yml"] = Some "X"
  /\ os_read_file (snd (Legacy.writeFileHandler fs_link_in "/pkg"
                         "_dev/build/docs/out/manifest.yml" "X"))
       ["pkg"; "data"; "manifest.yml"] = Some "X".
Proof. repeat split; vm_compute; reflexivity. Qed.

(** C8: the [docs/] filter of [read_file] is a prefix test on the argument
    as given: [./docs/README.md] and [docs/knowledge_base/../README.md] read
    the generated [docs/README.md], which [docs/README.md] cannot; and the
    earlier version denies the knowledge base too. *)
Theorem docs_filter_is_lexical :
  Tools.readFileHandler fs_docs "/pkg" "docs/README.md"
  = Ret (ToolError "access denied: cannot read generated documentation in docs/ (use _dev/build/docs/ instead)")
  /\ Tools.readFileHandler fs_docs "/pkg" "./docs/README.md" = Ret (ToolContent "generated")
  /\ Tools.readFileHandler fs_docs "/pkg" "docs/knowledge_base/../README.md"
     = Ret (ToolContent "generated")
  /\ Tools.readFileHandler fs_docs "/pkg" "docs/knowledge_base/kb.md" = Ret (ToolContent "kb")
  /\ Legacy.readFileHandler fs_docs "/pkg" "docs/knowledge_base/kb.md"
     = Ret (ToolError "access denied: invalid path").
Proof. repeat split; vm_compute; reflexivity. Qed.

(** ** Backup and restore *)

Lemma path_eqb_spec p q : path_eqb p q = true <-> p = q.
Proof.
  unfold path_eqb. destruct (list_eq_dec string_dec p q); split; congruence.
Qed.

Lemma fs_lookup_remove_same fs p : fs_lookup (fs_remove fs p) p = None.
Proof.
  induction fs as [|[q n] fs IH]; [reflexivity|]. unfold fs_remove in *. simpl.
  destruct (path_eqb q p) eqn:E; simpl; [exact IH|]. rewrite E. exact IH.
Qed.

Lemma fs_lookup_remove_other fs p q :
  q <> p -> fs_lookup (fs_remove fs p) q = fs_lookup fs q.
Proof.
  intros Hne. induction fs as [|[r n] fs IH]; [reflexivity|]. unfold fs_remove in *. simpl.
  destruct (path_eqb r p) eqn:E; simpl.
  - apply path_eqb_spec in E. subst r.
    destruct (path_eqb p q) eqn:E2; [apply path_eqb_spec in E2; congruence|exact IH].
  - destruct (path_eqb r q); [reflexivity|exact IH].
Qed.

Lemma fs_lookup_set_same fs p n : fs_lookup (fs_set fs p n) p = Some n.
Proof.
  unfold fs_set. simpl. destruct (path_eqb p p) eqn:E; [reflexivity|].
  exfalso. assert (p = p) as H by reflexivity. apply path_eqb_spec in H. congruence.
Qed.

Lemma fs_lookup_set_other fs p q n :
  q <> p -> fs_lookup (fs_set fs p n) q = fs_lookup fs q.
Proof.
  intros Hne. unfold fs_set. simpl.
  destruct (path_eqb p q) eqn:E; [apply path_eqb_spec in E; congruence|].
  apply fs_lookup_remove_other. exact Hne.
Qed.

(** A component that [walk] looks up (not empty, [.] or [..]). *)
Definition normal_seg (s : string) : bool := negb (is_dot s) && negb (is_dotdot s).

Lemma clean_aux_normal segs : forall stack,
  Forall (fun s => normal_seg s = true) stack ->
  Forall (fun s => normal_seg s = true) (clean_aux stack segs).
Proof.
  induction segs as [|sg segs IH]; intros stack H; simpl.
  - apply Forall_rev. exact H.
  - destruct (is_dot sg) eqn:E1; [apply IH; exact H|].
    destruct (is_dotdot sg) eqn:E2.
    + apply IH. destruct stack; simpl; [constructor|]. inversion H; assumption.
    + apply IH. constructor; [|exact H]. unfold normal_seg. rewrite E1, E2. reflexivity.
Qed.

Lemma docPath_normal d : Forall (fun s => normal_seg s = true) (docPath d).
Proof. apply clean_aux_normal. constructor. Qed.

Lemma walk_dir_step fs c l dest seg rest :
  normal_seg seg = true -> fs_lookup fs (dest ++ [seg])%list = Some Dir ->
  walk fs c l dest (seg :: rest) = walk fs c l (dest ++ [seg])%list rest.
Proof.
  unfold normal_seg. intros Hn Hd.
  destruct (is_dot seg) eqn:E1; [discriminate|].
  destruct (is_dotdot seg) eqn:E2; [discriminate|].
  destruct l; simpl; rewrite E1, E2, Hd; reflexivity.
Qed.

Lemma walk_nil fs c l dest : walk fs c l dest [] = WOk dest.
Proof. destruct l; reflexivity. Qed.

Lemma walk_last_file fs c l dest seg x :
  normal_seg seg = true -> fs_lookup fs (dest ++ [seg])%list = Some (File x) ->
  walk fs c l dest [seg] = WOk (dest ++ [seg])%list.
Proof.
  unfold normal_seg. intros Hn Hd.
  destruct (is_dot seg) eqn:E1; [discriminate|].
  destruct (is_dotdot seg) eqn:E2; [discriminate|].
  destruct l; simpl; rewrite E1, E2, Hd; reflexivity.
Qed.

Lemma walk_last_none fs l dest seg :
  normal_seg seg = true -> fs_lookup fs (dest ++ [seg])%list = None ->
  walk fs false l dest [seg] = WNotExist.
Proof.
  unfold normal_seg. intros Hn Hd.
  destruct (is_dot seg) eqn:E1; [discriminate|].
  destruct (is_dotdot seg) eqn:E2; [discriminate|].
  destruct l; simpl; rewrite E1, E2, Hd; reflexivity.
Qed.

(** Walking through components that are plain directories. *)
Lemma walk_dirs fs c l segs : forall dest rest,
  Forall (fun s => normal_seg s = true) segs ->
  (forall k, 1 <= k <= length segs -> fs_lookup fs (dest ++ firstn k segs)%list = Some Dir) ->
  walk fs c l dest (segs ++ rest)%list = walk fs c l (dest ++ segs)%list rest.
Proof.
  induction segs as [|seg segs IH]; intros dest rest Hn Hd; simpl.
  - rewrite app_nil_r. reflexivity.
  - inversion Hn as [|? ? Hseg Hsegs]; subst.
    rewrite walk_dir_step; [|exact Hseg|].
    + rewrite IH; [|exact Hsegs|].
      * rewrite <- app_assoc. reflexivity.
      * intros k Hk. rewrite <- app_assoc.
        apply (Hd (S k)). simpl. lia.
    + apply (Hd 1). simpl. lia.
Qed.

(** The proper prefixes of [p] are directories. *)
Definition prefix_dirs (fs : fsys) (p : path) : Prop :=
  forall k, 1 <= k <= length p - 1 -> fs_lookup fs (firstn k p) = Some Dir.

Lemma dirs_along_prefix_dirs fs p : dirs_along fs p = true -> prefix_dirs fs p.
Proof.
  unfold dirs_along, prefix_dirs. intros H k Hk.
  rewrite forallb_forall in H.
  specialize (H k ltac:(apply in_seq; lia)).
  destruct (fs_lookup fs (firstn k p)) as [[]|]; try discriminate. reflexivity.
Qed.

Lemma prefix_dirs_preserved fs fs' p :
  prefix_dirs fs p ->
  (forall q, length q < length p -> fs_lookup fs' q = fs_lookup fs q) ->
  prefix_dirs fs' p.
Proof.
  unfold prefix_dirs. intros H Hq k Hk. rewrite Hq; [apply H; exact Hk|].
  rewrite length_firstn. lia.
Qed.

Lemma removelast_decomp (p : path) :
  p <> [] -> p = (removelast p ++ [last p ""])%list.
Proof. intros H. apply app_removelast_last. exact H. Qed.

Lemma plain_parent fs c l p :
  p <> [] -> Forall (fun s => normal_seg s = true) p -> prefix_dirs fs p ->
  Forall (fun s => normal_seg s = true) (removelast p)
  /\ (forall rest, walk fs c l [] (removelast p ++ rest)%list
                   = walk fs c l (removelast p) rest)
  /\ normal_seg (last p "") = true.
Proof.
  intros Hne Hn Hd.
  pose proof (removelast_decomp p Hne) as Hp.
  assert (Hlen : length p = length (removelast p) + 1).
  { rewrite Hp at 1. rewrite length_app. simpl. lia. }
  rewrite Hp in Hn. apply Forall_app in Hn as [Hn1 Hn2].
  split; [exact Hn1|split].
  - intros rest. apply walk_dirs; [exact Hn1|].
    intros k Hk. simpl. unfold prefix_dirs in Hd.
    rewrite <- (Hd k) by lia. f_equal.
    rewrite Hp at 2. rewrite firstn_app.
    replace (k - length (removelast p)) with 0 by lia. rewrite firstn_O, app_nil_r.
    reflexivity.
  - inversion Hn2. assumption.
Qed.

Section PlainPath.

Variable p : path.
Hypothesis Hne : p <> [].
Hypothesis Hnorm : Forall (fun s => normal_seg s = true) p.

Lemma plain_parent_resolve fs c l :
  prefix_dirs fs p -> walk fs c l [] (removelast p) = WOk (removelast p).
Proof.
  intros Hd. destruct (plain_parent fs c l p Hne Hnorm Hd) as (_ & Hw & _).
  specialize (Hw []). rewrite app_nil_r in Hw. rewrite Hw. apply walk_nil.
Qed.

Lemma plain_walk_last fs c l :
  prefix_dirs fs p -> walk fs c l [] p = walk fs c l (removelast p) [last p ""].
Proof.
  intros Hd. destruct (plain_parent fs c l p Hne Hnorm Hd) as (_ & Hw & _).
  rewrite <- Hw. rewrite <- removelast_decomp by exact Hne. reflexivity.
Qed.

Lemma plain_file_resolve fs c l x :
  prefix_dirs fs p -> fs_lookup fs p = Some (File x) -> walk fs c l [] p = WOk p.
Proof.
  intros Hd Hx. rewrite plain_walk_last by exact Hd.
  destruct (plain_parent fs c l p Hne Hnorm Hd) as (_ & _ & Hlast).
  rewrite (walk_last_file fs c l (removelast p) (last p "") x Hlast);
    rewrite <- removelast_decomp by exact Hne; [reflexivity|exact Hx].
Qed.

Lemma plain_none_resolve fs l :
  prefix_dirs fs p -> fs_lookup fs p = None -> walk fs false l [] p = WNotExist.
Proof.
  intros Hd Hx. rewrite plain_walk_last by exact Hd.
  destruct (plain_parent fs false l p Hne Hnorm Hd) as (_ & _ & Hlast).
  apply walk_last_none; [exact Hlast|].
  rewrite <- removelast_decomp by exact Hne. exact Hx.
Qed.

(** Removing a regular file reached through plain directories: it no
    longer exists afterwards. *)
Lemma remove_plain_file fs x :
  prefix_dirs fs p -> fs_lookup fs p = Some (File x) ->
  os_remove fs p = Some (fs_remove fs p) /\ os_exists (fs_remove fs p) p = false.
Proof.
  intros Hd Hx. split.
  - unfold os_remove, os_resolve, parent. rewrite plain_parent_resolve by exact Hd.
    cbv zeta. rewrite <- removelast_decomp by exact Hne. rewrite Hx. reflexivity.
  - unfold os_exists, os_resolve. rewrite plain_none_resolve; [reflexivity| |].
    + apply (prefix_dirs_preserved fs); [exact Hd|].
      intros q Hq. apply fs_lookup_remove_other. intros ->. lia.
    + apply fs_lookup_remove_same.
Qed.

(** Writing over a regular file reached through plain directories: the
    file then holds the data written. *)
Lemma write_plain_file fs x data :
  prefix_dirs fs p -> fs_lookup fs p = Some (File x) ->
  os_write_file fs p data = Some (fs_set fs p (File data))
  /\ os_read_file (fs_set fs p (File data)) p = Some data.
Proof.
  intros Hd Hx. split.
  - unfold os_write_file, os_resolve.
    rewrite (plain_file_resolve fs true 40 x Hd Hx), Hx. reflexivity.
  - assert (Hd' : prefix_dirs (fs_set fs p (File data)) p).
    { apply (prefix_dirs_preserved fs); [exact Hd|].
      intros q Hq. apply fs_lookup_set_other. intros ->. lia. }
    unfold os_read_file, os_resolve.
    rewrite (plain_file_resolve _ false 40 data Hd' (fs_lookup_set_same fs p (File data))).
    rewrite fs_lookup_set_same. reflexivity.
Qed.

End PlainPath.

Lemma handleUserAction_cancel hA hR d fs u :
  handleUserAction hA hR d fs "Cancel" u
  = (("", false, true, None), restoreOriginalReadme d fs).
Proof. reflexivity. Qed.

Lemma backup_docPath d fs : docPath (backupOriginalReadme d fs) = docPath d.
Proof.
  unfold backupOriginalReadme.
  destruct (os_exists fs (docPath d)); [destruct (os_read_file fs (docPath d))|]; reflexivity.
Qed.

Lemma read_file_exists fs p c : os_read_file fs p = Some c -> os_exists fs p = true.
Proof.
  unfold os_read_file, os_exists. destruct (os_resolve fs false p); congruence.
Qed.



(** * Further properties of the code *)

(** ** Path resolution after a write *)

Lemma walk_cons fs c l dest seg rest :
  walk fs c l dest (seg :: rest) =
  if is_dot seg then walk fs c l dest rest
  else if is_dotdot seg then walk fs c l (removelast dest) rest
  else
    match fs_lookup fs (dest ++ [seg])%list with
    | None =>
        match rest with
        | [] => if c then WOk (dest ++ [seg])%list else WNotExist
        | _ => WNotExist
        end
    | Some Dir => walk fs c l (dest ++ [seg])%list rest
    | Some (File _) =>
        match rest with
        | [] => WOk (dest ++ [seg])%list
        | _ => WOther
        end
    | Some (Symlink target) =>
        match l with
        | O => WOther
        | S l' => walk fs c l' (if has_prefix target "/" then [] else dest)
                    (split_path target ++ rest)%list
        end
    end.
Proof. destruct l; reflexivity. Qed.

(** A resolution that ends on a missing entry or a regular file [q] only
    looks [q] up at its last step; so once [q] is a regular file, and
    nothing else has changed, the same path resolves to [q] again. *)
Lemma walk_after_write fs fs' c l : forall dest rest q x,
  walk fs c l dest rest = WOk q ->
  (fs_lookup fs q = None \/ exists y, fs_lookup fs q = Some (File y)) ->
  (forall r, r <> q -> fs_lookup fs' r = fs_lookup fs r) ->
  fs_lookup fs' q = Some (File x) ->
  walk fs' false l dest rest = WOk q.
Proof.
  induction l as [|l IHl]; intros dest rest; revert dest;
    induction rest as [|seg rest IHr]; intros dest q x Hw Hq Hsame Hx;
    try (rewrite walk_nil in Hw |- *; exact Hw);
    rewrite walk_cons in Hw |- *;
    (destruct (is_dot seg); [eapply IHr; eassumption|]);
    (destruct (is_dotdot seg); [eapply IHr; eassumption|]);
    (assert (Hnq : forall n, fs_lookup fs (dest ++ [seg])%list = Some n ->
                   (forall y, n <> File y) -> (dest ++ [seg])%list <> q)
       by (intros n Hn Hny E; subst q; destruct Hq as [Hq|[y Hq]]; rewrite Hq in Hn;
           [discriminate|injection Hn as <-; exact (Hny y eq_refl)]));
    destruct (fs_lookup fs (dest ++ [seg])%list) as [[y| |t]|] eqn:Hd;
    cbv beta iota in Hw.
  all: try (destruct rest; [|cbv beta iota in Hw; discriminate];
            injection Hw as <-; rewrite Hx; reflexivity).
  all: try (rewrite Hsame by (apply (Hnq Dir); [reflexivity|intros ? ?; discriminate]); rewrite Hd;
            eapply IHr; eassumption).
  all: try discriminate.
  all: try (rewrite Hsame by (apply (Hnq (Symlink t)); [reflexivity|intros ? ?; discriminate]); rewrite Hd;
            eapply IHl; eassumption).
  all: destruct rest; [|cbv beta iota in Hw; discriminate]; destruct c; [|discriminate];
    injection Hw as <-; rewrite Hx; reflexivity.
Qed.

Lemma os_write_then_read fs p data fs' :
  os_write_file fs p data = Some fs' -> os_read_file fs' p = Some data.
Proof.
  unfold os_write_file, os_read_file, os_resolve. intros H.
  destruct (walk fs true 40 [] p) as [q| |] eqn:R; try discriminate.
  assert (Hq : fs_lookup fs q = None \/ exists y, fs_lookup fs q = Some (File y)).
  { destruct (fs_lookup fs q) as [[y| |t]|]; try discriminate; [right; exists y|left]; reflexivity. }
  assert (Hfs' : fs' = fs_set fs q (File data)).
  { destruct (fs_lookup fs q) as [[y| |t]|]; try discriminate; injection H as <-; reflexivity. }
  subst fs'.
  rewrite (walk_after_write fs (fs_set fs q (File data)) true 40 [] p q data R Hq).
  - rewrite fs_lookup_set_same. reflexivity.
  - intros r Hr. apply fs_lookup_set_other. exact Hr.
  - apply fs_lookup_set_same.
Qed.

(** [writeFileHandler] of package [tools]: when the tool reports
    success, its message gives the length of the content and the path as
    the model wrote it, and reading the joined path afterwards returns
    exactly the content written. *)
Theorem tools_write_success_readback fs packageRoot userPath content msg fs' :
  Tools.writeFileHandler fs packageRoot userPath content = (Ret (ToolContent msg), fs') ->
  msg = "Successfully wrote " ++ itoa (String.length content) ++ " bytes to " ++ userPath
  /\ os_read_file fs' (join packageRoot [userPath]) = Some content.
Proof.
  unfold Tools.writeFileHandler. intros H.
  destruct (Tools.validatePathInRoot fs packageRoot userPath) as [full|e] eqn:V;
    [|discriminate].
  assert (Hfull : full = join packageRoot [userPath]).
  { unfold Tools.validatePathInRoot in V.
    destruct (eval_symlinks fs (join packageRoot [userPath])); try discriminate;
    destruct (eval_symlinks fs (split_path packageRoot)); try discriminate;
    match type of V with
    | (if ?b then _ else _) = _ => destruct b; [discriminate|]
    end; injection V as <-; reflexivity. }
  subst full.
  destruct (match eval_symlinks fs (join packageRoot ["_dev"; "build"; "docs"]) with
            | WOk p => inl p
            | WNotExist => inl (clean (join packageRoot ["_dev"; "build"; "docs"]))
            | WOther => inr _
            end) as [ra|e]; [|discriminate].
  destruct (escapes (clean ra) (clean (join packageRoot [userPath]))); [discriminate|].
  destruct (os_mkdir_all fs (parent (join packageRoot [userPath]))) as [fs1|]; [|discriminate].
  destruct (os_write_file fs1 (join packageRoot [userPath]) content) as [fs2|] eqn:W;
    [|discriminate].
  injection H as <- <-. split; [reflexivity|]. exact (os_write_then_read _ _ _ _ W).
Qed.

(** [writeFileHandler] of the earlier [llmagent] package: the same
    read-back guarantee holds for the lexical variant of the tool. *)
Theorem legacy_write_success_readback fs packageRoot userPath content msg fs' :
  Legacy.writeFileHandler fs packageRoot userPath content = (Ret (ToolContent msg), fs') ->
  msg = "Successfully wrote " ++ itoa (String.length content) ++ " bytes to " ++ userPath
  /\ os_read_file fs' (join packageRoot [userPath]) = Some content.
Proof.
  unfold Legacy.writeFileHandler. intros H.
  destruct (escapes _ _); [discriminate|].
  destruct (os_mkdir_all fs (parent (join packageRoot [userPath]))) as [fs1|]; [|discriminate].
  destruct (os_write_file fs1 (join packageRoot [userPath]) content) as [fs2|] eqn:W;
    [|discriminate].
  injection H as <- <-. split; [reflexivity|]. exact (os_write_then_read _ _ _ _ W).
Qed.

Lemma tools_write_success_readback_witness :
  Tools.writeFileHandler fs_example "/pkg" "_dev/build/docs/README.md" "hi"
  = (Ret (ToolContent "Successfully wrote 2 bytes to _dev/build/docs/README.md"),
     snd (Tools.writeFileHandler fs_example "/pkg" "_dev/build/docs/README.md" "hi"))
  /\ os_read_file (snd (Tools.writeFileHandler fs_example "/pkg" "_dev/build/docs/README.md" "hi"))
       (join "/pkg" ["_dev/build/docs/README.md"]) = Some "hi".
Proof.
  assert (H : Tools.writeFileHandler fs_example "/pkg" "_dev/build/docs/README.md" "hi"
    = (Ret (ToolContent "Successfully wrote 2 bytes to _dev/build/docs/README.md"),
       snd (Tools.writeFileHandler fs_example "/pkg" "_dev/build/docs/README.md" "hi")))
    by (vm_compute; reflexivity).
  split; [exact H|].
  exact (proj2 (tools_write_success_readback _ _ _ _ _ _ H)).
Defined.

Lemma legacy_write_success_readback_witness :
  Legacy.writeFileHandler fs_example "/pkg" "_dev/build/docs/new/x.md" "abc"
  = (Ret (ToolContent "Successfully wrote 3 bytes to _dev/build/docs/new/x.md"),
     snd (Legacy.writeFileHandler fs_example "/pkg" "_dev/build/docs/new/x.md" "abc"))
  /\ os_read_file (snd (Legacy.writeFileHandler fs_example "/pkg" "_dev/build/docs/new/x.md" "abc"))
       (join "/pkg" ["_dev/build/docs/new/x.md"]) = Some "abc".
Proof.
  assert (H : Legacy.writeFileHandler fs_example "/pkg" "_dev/build/docs/new/x.md" "abc"
    = (Ret (ToolContent "Successfully wrote 3 bytes to _dev/build/docs/new/x.md"),
       snd (Legacy.writeFileHandler fs_example "/pkg" "_dev/build/docs/new/x.md" "abc")))
    by (vm_compute; reflexivity).
  split; [exact H|].
  exact (proj2 (legacy_write_success_readback _ _ _ _ _ _ H)).
Defined.

(** ** Extracted sections *)

Lemma prefix_app_iff u s : String.prefix u s = true <-> exists b, s = u ++ b.
Proof.
  revert s; induction u as [|ch u IH]; intros s.
  - split; [intros _; exists s; reflexivity|intros _; destruct s; reflexivity].
  - destruct s as [|ch' s]; simpl.
    + split; [discriminate|intros [b Hb]; discriminate Hb].
    + destruct (ascii_dec ch ch') as [<-|Hne].
      * rewrite IH. split; intros [b Hb]; exists b; [rewrite Hb|injection Hb as Hb]; auto.
      * split; [discriminate|intros [b Hb]; injection Hb as E _; congruence].
Qed.

Lemma index_split s sub i :
  index s sub = Some i -> exists a b, s = a ++ sub ++ b /\ String.length a = i.
Proof.
  assert (Eq : forall s, index s sub =
            if String.prefix sub s then Some 0 else
            match s with EmptyString => None | String _ s' => option_map S (index s' sub) end)
    by (intros [|ch s']; reflexivity).
  revert i; induction s as [|ch s IH]; intros i H; rewrite Eq in H;
    destruct (String.prefix sub _) eqn:P.
  - injection H as <-. apply prefix_app_iff in P as [b Hb].
    exists "", b. split; [exact Hb|reflexivity].
  - discriminate.
  - injection H as <-. apply prefix_app_iff in P as [b Hb].
    exists "", b. split; [exact Hb|reflexivity].
  - destruct (index s sub) as [j|] eqn:Hj; [|discriminate]. simpl in H.
    injection H as <-. destruct (IH j eq_refl) as [a [b [E L]]].
    exists (String ch a), b. split; [rewrite E; reflexivity|simpl; rewrite L; reflexivity].
Qed.

Lemma substring_whole s : substring 0 (String.length s) s = s.
Proof. induction s as [|ch s IH]; [reflexivity|simpl; rewrite IH; reflexivity]. Qed.

Lemma substring_app_prefix s t n : n <= String.length s -> substring 0 n (s ++ t) = substring 0 n s.
Proof.
  revert n; induction s as [|ch s IH]; intros n Hn.
  - simpl in Hn. assert (n = 0) as -> by lia. destruct t; reflexivity.
  - destruct n; [reflexivity|]. simpl in *. rewrite IH by lia. reflexivity.
Qed.

Lemma substring_app_skip a s n m : substring (String.length a + n) m (a ++ s) = substring n m s.
Proof. induction a as [|ch a IH]; [reflexivity|exact IH]. Qed.

Lemma substring_middle a c d : substring (String.length a) (String.length c) (a ++ c ++ d) = c.
Proof.
  rewrite <- (Nat.add_0_r (String.length a)), substring_app_skip.
  rewrite substring_app_prefix by lia. apply substring_whole.
Qed.

Lemma suffix_from_app a b : suffix_from (String.length a) (a ++ b) = b.
Proof.
  unfold suffix_from. rewrite str_length_app.
  replace (String.length a + String.length b - String.length a) with (String.length b) by lia.
  rewrite <- (Nat.add_0_r (String.length a)), substring_app_skip. apply substring_whole.
Qed.

Lemma split_at s i : i <= String.length s ->
  exists p, s = p ++ suffix_from i s /\ String.length p = i.
Proof.
  revert i; induction s as [|ch s IH]; intros i Hi.
  - exists "". simpl in Hi. assert (i = 0) as -> by lia. split; reflexivity.
  - destruct i.
    + exists "". split; [|reflexivity]. unfold suffix_from. simpl.
      rewrite substring_whole. reflexivity.
    + simpl in Hi. destruct (IH i ltac:(lia)) as [p [E L]].
      exists (String ch p). split; [|simpl; rewrite L; reflexivity].
      unfold suffix_from in *. simpl. rewrite <- E. reflexivity.
Qed.

Lemma contains_middle a c d : contains (a ++ c ++ d) c = true.
Proof.
  induction a as [|ch a IH].
  - assert (P : String.prefix c (c ++ d) = true) by (apply prefix_app_iff; exists d; reflexivity).
    change (contains (c ++ d) c = true). revert P; generalize (c ++ d); intros s P; destruct s; cbn [contains]; rewrite P; reflexivity.
  - cbn [contains String.append]. rewrite IH. apply orb_true_r.
Qed.

Lemma app_overlap u v w z : u ++ v = w ++ z ->
  (exists x, u = w ++ x) \/ (exists x, w = u ++ x).
Proof.
  revert w; induction u as [|ch u IH]; intros w E.
  - right. exists w. reflexivity.
  - destruct w as [|ch' w].
    + left. exists (String ch u). reflexivity.
    + simpl in E. injection E as <- E. destruct (IH w E) as [[x Hx]|[x Hx]];
        [left|right]; exists x; rewrite Hx; reflexivity.
Qed.

(** The end marker, searched from the start marker on, ends past it when
    it does not occur inside the start marker. *)
Lemma end_after_start ms me b c d :
  contains ms me = false -> ms ++ b = c ++ me ++ d -> exists x, c ++ me = ms ++ x.
Proof.
  revert c; induction ms as [|ch ms IH]; intros c Hc E.
  - exists (c ++ me). reflexivity.
  - destruct c as [|ch' c].
    + simpl in E. destruct (app_overlap me d (String ch ms) b (eq_sym E)) as [[x Hx]|[x Hx]].
      * exists x. exact Hx.
      * exfalso. rewrite Hx in Hc. pose proof (contains_middle "" me x) as Hm.
        change (contains (me ++ x) me = true) in Hm. congruence.
    + simpl in E. injection E as <- E. simpl in Hc. apply orb_false_iff in Hc as [_ Hc].
      destruct (IH c Hc E) as [x Hx]. exists x. simpl. rewrite Hx. reflexivity.
Qed.

Lemma str_app_assoc a b c : (a ++ b) ++ c = a ++ b ++ c.
Proof. induction a as [|ch a IH]; [reflexivity|simpl; rewrite IH; reflexivity]. Qed.

Lemma map_set_in k v m kv : In kv (map_set k v m) -> kv = (k, v) \/ In kv m.
Proof.
  induction m as [|[k' v'] m IH]; simpl; [intros [H|[]]; left; auto|].
  destruct (String.eqb k k'); simpl.
  - intros [H|H]; [left; auto|right; right; exact H].
  - intros [H|H]; [right; left; exact H|destruct (IH H); [left|right; right]; auto].
Qed.

(** Every section the loop for one marker pair adds is a substring of the
    content, includes both markers and has a numbered key. *)
Lemma extract_marker_sections content mk :
  contains (marker_start mk) (marker_end mk) = false ->
  forall fuel startIdx n sections kv,
  startIdx <= String.length content ->
  In kv (extract_marker fuel content mk startIdx n sections) ->
  In kv sections \/
  (contains content (snd kv) = true
   /\ has_prefix (snd kv) (marker_start mk) = true
   /\ (exists y, snd kv = y ++ marker_end mk)
   /\ exists i, fst kv = marker_name mk ++ "-" ++ itoa i).
Proof.
  intros Hm fuel. induction fuel as [|fuel IH]; intros startIdx n sections kv Hs Hin;
    [left; exact Hin|].
  cbn [extract_marker] in Hin.
  destruct (index (suffix_from startIdx content) (marker_start mk)) as [s0|] eqn:I1;
    [|left; exact Hin].
  destruct (split_at content startIdx Hs) as [p [Ec Lp]].
  apply index_split in I1 as [a [b [Et La]]].
  rewrite Et in Ec.
  assert (Hst : s0 + startIdx = String.length (p ++ a)) by (rewrite str_length_app; lia).
  assert (Ec' : content = (p ++ a) ++ (marker_start mk ++ b)) by (rewrite str_app_assoc; exact Ec).
  rewrite Hst in Hin.
  assert (Hsuf : suffix_from (String.length (p ++ a)) content = marker_start mk ++ b)
    by (rewrite Ec'; apply suffix_from_app).
  rewrite Hsuf in Hin.
  destruct (index (marker_start mk ++ b) (marker_end mk)) as [e0|] eqn:I2; [|left; exact Hin].
  apply index_split in I2 as [c [d [Ecd Lc]]].
  destruct (end_after_start _ _ _ _ _ Hm Ecd) as [x Hx].
  assert (Hc2 : content = (p ++ a) ++ (c ++ marker_end mk) ++ d)
    by (rewrite Ec', Ecd, (str_app_assoc c); reflexivity).
  assert (Hlen : e0 + String.length (p ++ a) + String.length (marker_end mk) - String.length (p ++ a)
                 = String.length (c ++ marker_end mk)) by (rewrite !str_length_app; lia).
  rewrite Hlen in Hin.
  assert (Hsub : substring (String.length (p ++ a)) (String.length (c ++ marker_end mk)) content
                 = c ++ marker_end mk) by (rewrite Hc2; apply substring_middle).
  rewrite Hsub in Hin.
  assert (Hle : e0 + String.length (p ++ a) + String.length (marker_end mk) <= String.length content).
  { rewrite Hc2, !str_length_app. lia. }
  destruct (IH _ _ _ _ Hle Hin) as [H|H]; [|right; exact H].
  apply map_set_in in H as [->|H]; [right|left; exact H].
  simpl. split; [rewrite Hc2; apply contains_middle|].
  split; [unfold has_prefix; apply prefix_app_iff; exists x; exact Hx|].
  split; [exists c; reflexivity|exists n; reflexivity].
Qed.

Lemma extract_sections markers content :
  (forall mk, In mk markers -> contains (marker_start mk) (marker_end mk) = false) ->
  forall kv, In kv (extractPreservedSections_with markers content) ->
  contains content (snd kv) = true
  /\ exists mk, In mk markers
       /\ has_prefix (snd kv) (marker_start mk) = true
       /\ (exists y, snd kv = y ++ marker_end mk)
       /\ exists i, fst kv = marker_name mk ++ "-" ++ itoa i.
Proof.
  unfold extractPreservedSections_with. intros Hms.
  assert (G : forall ms acc kv, incl ms markers ->
    In kv (fold_left (fun sections mk =>
             extract_marker (S (String.length content)) content mk 0 1 sections) ms acc) ->
    In kv acc \/
    (contains content (snd kv) = true
     /\ exists mk, In mk markers
          /\ has_prefix (snd kv) (marker_start mk) = true
          /\ (exists y, snd kv = y ++ marker_end mk)
          /\ exists i, fst kv = marker_name mk ++ "-" ++ itoa i)).
  { induction ms as [|mk ms IH]; intros acc kv Hincl Hin; [left; exact Hin|].
    cbn [fold_left] in Hin. destruct (IH _ _ (proj2 (incl_cons_inv Hincl)) Hin) as [H|H]; [|right; exact H].
    assert (Hmk : In mk markers) by (apply Hincl; left; reflexivity).
    destruct (extract_marker_sections content mk (Hms mk Hmk) _ 0 1 acc kv
                ltac:(lia) H) as [H'|(H1 & H2 & H3 & H4)]; [left; exact H'|].
    right. split; [exact H1|]. exists mk. auto. }
  intros kv Hin. destruct (G markers [] kv (incl_refl _) Hin) as [[]|H]. exact H.
Qed.

Lemma collect_warnings_nil newContent sections :
  (forall kv, In kv sections -> contains newContent (snd kv) = true) ->
  collect_warnings newContent sections = [].
Proof.
  induction sections as [|[k v] sections IH]; intros H; [reflexivity|].
  rewrite collect_warnings_cons.
  rewrite (H (k, v) (or_introl eq_refl) : contains newContent v = true). cbv beta iota.
  apply IH. intros kv Hkv. apply H. right. exact Hkv.
Qed.

Lemma preserve_markers_disjoint mk :
  In mk preserve_markers -> contains (marker_start mk) (marker_end mk) = false.
Proof. intros [<-|[]]. vm_compute. reflexivity. Qed.

Lemma preserve_markers_earlier_disjoint mk :
  In mk preserve_markers_earlier -> contains (marker_start mk) (marker_end mk) = false.
Proof. intros [<-|[<-|[]]]; vm_compute; reflexivity. Qed.

(** [extractPreservedSections] (current version): every extracted section
    occurs in the content, starts with the start marker, ends with the end
    marker, and is stored under a key [PRESERVE-n]. *)
Theorem extracted_section_shape content k v :
  In (k, v) (extractPreservedSections content) ->
  contains content v = true
  /\ has_prefix v "<!-- PRESERVE START -->" = true
  /\ (exists y, v = y ++ "<!-- PRESERVE END -->")
  /\ exists i, k = "PRESERVE-" ++ itoa i.
Proof.
  intros Hin.
  destruct (extract_sections preserve_markers content preserve_markers_disjoint (k, v) Hin)
    as [Hc [mk [[<-|[]] [Hp [Hy Hk]]]]].
  split; [exact Hc|]. split; [exact Hp|]. split; [exact Hy|exact Hk].
Qed.

Lemma extracted_section_shape_witness :
  In ("PRESERVE-1", "<!-- PRESERVE START -->kept<!-- PRESERVE END -->")
     (extractPreservedSections "intro <!-- PRESERVE START -->kept<!-- PRESERVE END --> tail")
  /\ contains "intro <!-- PRESERVE START -->kept<!-- PRESERVE END --> tail"
       "<!-- PRESERVE START -->kept<!-- PRESERVE END -->" = true.
Proof.
  assert (H : In ("PRESERVE-1", "<!-- PRESERVE START -->kept<!-- PRESERVE END -->")
     (extractPreservedSections "intro <!-- PRESERVE START -->kept<!-- PRESERVE END --> tail"))
    by (vm_compute; left; reflexivity).
  split; [exact H|].
  exact (proj1 (extracted_section_shape _ _ _ H)).
Defined.

(** [extractPreservedSections] (earlier version, two marker pairs): every
    extracted section occurs in the content and is delimited by one of the
    two marker pairs, under the key of that pair. *)
Theorem extracted_section_shape_earlier content k v :
  In (k, v) (extractPreservedSections_earlier content) ->
  contains content v = true
  /\ ((has_prefix v "<!-- HUMAN-EDITED START -->" = true
       /\ (exists y, v = y ++ "<!-- HUMAN-EDITED END -->")
       /\ exists i, k = "HUMAN-EDITED-" ++ itoa i)
      \/ (has_prefix v "<!-- PRESERVE START -->" = true
          /\ (exists y, v = y ++ "<!-- PRESERVE END -->")
          /\ exists i, k = "PRESERVE-" ++ itoa i)).
Proof.
  intros Hin.
  destruct (extract_sections preserve_markers_earlier content
              preserve_markers_earlier_disjoint (k, v) Hin)
    as [Hc [mk [[<-|[<-|[]]] H]]]; split; auto.
Qed.

Lemma extracted_section_shape_earlier_witness :
  In ("HUMAN-EDITED-1", "<!-- HUMAN-EDITED START -->x<!-- HUMAN-EDITED END -->")
     (extractPreservedSections_earlier "<!-- HUMAN-EDITED START -->x<!-- HUMAN-EDITED END -->")
  /\ contains "<!-- HUMAN-EDITED START -->x<!-- HUMAN-EDITED END -->"
       "<!-- HUMAN-EDITED START -->x<!-- HUMAN-EDITED END -->" = true.
Proof.
  assert (H : In ("HUMAN-EDITED-1", "<!-- HUMAN-EDITED START -->x<!-- HUMAN-EDITED END -->")
     (extractPreservedSections_earlier "<!-- HUMAN-EDITED START -->x<!-- HUMAN-EDITED END -->"))
    by (vm_compute; left; reflexivity).
  split; [exact H|].
  exact (proj1 (extracted_section_shape_earlier _ _ _ H)).
Defined.

(** [validatePreservedSections], both versions: a document compared with
    itself never yields a warning. *)
Theorem validate_unchanged_no_warning content :
  validatePreservedSections content content = []
  /\ validatePreservedSections_earlier content content = [].
Proof.
  split; apply collect_warnings_nil; intros kv Hin;
    [exact (proj1 (extract_sections _ _ preserve_markers_disjoint kv Hin))
    |exact (proj1 (extract_sections _ _ preserve_markers_earlier_disjoint kv Hin))].
Qed.

Lemma contains_split s v : contains s v = true -> exists a b, s = a ++ v ++ b.
Proof.
  induction s as [|ch s IH]; intros H.
  - destruct v; [exists "", ""; reflexivity|discriminate].
  - cbn [contains] in H. apply orb_true_iff in H as [H|H].
    + apply prefix_app_iff in H as [b Hb]. exists "", b. exact Hb.
    + destruct (IH H) as [a [b E]]. exists (String ch a), b. rewrite E. reflexivity.
Qed.

(** [extractPreservedSections] (current version): a document without the
    start marker has no section to preserve. *)
Theorem no_marker_no_section content :
  contains content "<!-- PRESERVE START -->" = false ->
  extractPreservedSections content = [].
Proof.
  intros Hno. destruct (extractPreservedSections content) as [|[k v] rest] eqn:E; [reflexivity|].
  exfalso.
  assert (Hin : In (k, v) (extractPreservedSections content)) by (rewrite E; left; reflexivity).
  destruct (extract_sections preserve_markers content preserve_markers_disjoint (k, v) Hin)
    as [Hc [mk [[<-|[]] [Hp _]]]].
  cbn [snd marker_start preserve_markers] in Hc, Hp.
  apply contains_split in Hc as [a [b Ec]].
  unfold has_prefix in Hp. apply prefix_app_iff in Hp as [x Hx].
  rewrite Ec, Hx, str_app_assoc, contains_middle in Hno. discriminate.
Qed.

Lemma no_marker_no_section_witness :
  contains "orphan end marker <!-- PRESERVE END -->" "<!-- PRESERVE START -->" = false
  /\ extractPreservedSections "orphan end marker <!-- PRESERVE END -->" = [].
Proof.
  assert (H : contains "orphan end marker <!-- PRESERVE END -->" "<!-- PRESERVE START -->" = false)
    by (vm_compute; reflexivity).
  split; [exact H|]. apply (no_marker_no_section _ H).
Defined.

(** ** Document backup and update detection *)

Lemma handleReadmeUpdate_true d fs e :
  handleReadmeUpdate d fs = (true, e) ->
  e = None /\ exists c, os_read_file fs (docPath d) = Some c /\ c <> ""
                        /\ originalReadmeContent d <> Some c.
Proof.
  unfold handleReadmeUpdate, checkReadmeUpdated.
  destruct (os_exists fs (docPath d)); cbn [negb]; [|discriminate].
  destruct (os_read_file fs (docPath d)) as [c|]; cbn [negb]; [|discriminate].
  destruct (String.eqb c "") eqn:E2; [intros H; match type of H with (if ?b then _ else _) = _ => destruct b; discriminate H end|].
  destruct (originalReadmeContent d) as [o|] eqn:Eo.
  - destruct (String.eqb c o) eqn:E1; cbn [negb]; [discriminate|].
    intros H; injection H as <-. split; [reflexivity|]. exists c.
    apply String.eqb_neq in E1, E2. split; [reflexivity|]. split; [exact E2|congruence].
  - cbn [negb]. intros H; injection H as <-. split; [reflexivity|]. exists c.
    apply String.eqb_neq in E2. split; [reflexivity|]. split; [exact E2|discriminate].
Qed.


(** [backupOriginalReadme] then [checkReadmeUpdated]: right after the
    backup, the document is never reported as updated, whether it exists,
    cannot be read, or is missing. *)
Theorem backup_then_not_updated d fs :
  checkReadmeUpdated (backupOriginalReadme d fs) fs = false.
Proof.
  unfold checkReadmeUpdated, backupOriginalReadme.
  destruct (os_exists fs (docPath d)) eqn:Ex.
  - destruct (os_read_file fs (docPath d)) as [c|] eqn:R.
    + change (docPath (set_original d (Some c))) with (docPath d).
      rewrite Ex, R. cbn [negb originalReadmeContent set_original].
      rewrite String.eqb_refl. reflexivity.
    + rewrite Ex, R. reflexivity.
  - change (docPath (set_original d None)) with (docPath d). rewrite Ex. reflexivity.
Qed.


(** [runNonInteractiveMode]: it returns a nil error only when the document
    on disk at the end is non-empty and differs from the backup. *)
Theorem unattended_success_means_updated env d fs prompt :
  snd (runNonInteractiveMode env d fs prompt) = None ->
  exists c, os_read_file (fst (runNonInteractiveMode env d fs prompt)) (docPath d) = Some c
            /\ c <> "" /\ originalReadmeContent d <> Some c.
Proof.
  unfold runNonInteractiveMode. cbv beta zeta.
  repeat match goal with
  | |- context [executeTask env ?f ?p] =>
      let fsx := fresh "fs" in
      let r := fresh "r" in
      destruct (executeTask env f p) as [fsx [r|r]]
  | |- context [handleReadmeUpdate d ?f] =>
      let u := fresh "u" in
      let er := fresh "er" in
      let E := fresh "E" in
      destruct (handleReadmeUpdate d f) as [u er] eqn:E
  | |- context [if ?b then _ else _] => destruct b eqn:?
  | |- context [sectionBasedPrompt env] => destruct (sectionBasedPrompt env)
  end;
  cbn [fst snd]; intros H; try discriminate H;
  subst; match goal with
  | E : handleReadmeUpdate d _ = (true, None) |- _ =>
      destruct (handleReadmeUpdate_true _ _ _ E) as [_ Hc]; exact Hc
  end.
Qed.

Lemma unattended_success_means_updated_witness :
  let env := mkEnv (fun fs _ =>
               (match os_write_file fs (docPath agent_example) "# Docs" with
                | Some fs' => fs' | None => fs end,
                inl (mkTaskResult "The README is written." [])))
               (inr "no manifest") in
  snd (runNonInteractiveMode env agent_example fs_example "go") = None
  /\ exists c, os_read_file (fst (runNonInteractiveMode env agent_example fs_example "go"))
                 (docPath agent_example) = Some c /\ c <> "" /\ None <> Some c.
Proof.
  intros env.
  assert (H : snd (runNonInteractiveMode env agent_example fs_example "go") = None)
    by (vm_compute; reflexivity).
  split; [exact H|].
  exact (unattended_success_means_updated env agent_example fs_example "go" H).
Defined.

(** ** Error replies without a conversation *)

Lemma isErrorResponse_indicators content :
  isErrorResponse content = hasErrorIndicator content && negb (isTokenLimitMessage content).
Proof.
  unfold isErrorResponse, isTaskResultError, isTaskResultError_with.
  destruct (is_blank content) eqn:B.
  - destruct (hasErrorIndicator content) eqn:He; [|reflexivity].
    rewrite (error_indicator_not_blank _ He) in B. discriminate.
  - destruct (isTokenLimitMessage content), (hasErrorIndicator content); reflexivity.
Qed.


(** ** Interactive mode *)

Lemma displayReadme_true d fs :
  displayReadmeIfUpdated d fs = true ->
  exists c, os_read_file fs (docPath d) = Some c /\ c <> "" /\ originalReadmeContent d <> Some c.
Proof.
  unfold displayReadmeIfUpdated, readCurrentReadme, checkReadmeUpdated.
  destruct (os_exists fs (docPath d)); cbn [negb]; [|discriminate].
  destruct (os_read_file fs (docPath d)) as [c|]; cbn [negb]; [|discriminate].
  destruct (String.eqb c "") eqn:E2;
    [intros H; match type of H with (if ?b then _ else _) = _ => destruct b; discriminate H end|].
  destruct (originalReadmeContent d) as [o|].
  - destruct (String.eqb c o) eqn:E1; cbn [negb]; [discriminate|]. intros _.
    exists c. apply String.eqb_neq in E1, E2. split; [reflexivity|]. split; [exact E2|congruence].
  - intros _. exists c. apply String.eqb_neq in E2. split; [reflexivity|]. split; [exact E2|discriminate].
Qed.

(** [runInteractiveMode]: it returns a nil error only when the user
    accepted a document that is on disk, non-empty and different from the
    backup, or right after the backup was restored ("Cancel", or "Exit
    anyway" when nothing was written). *)
Theorem interactive_nil_accepted_or_restored env buildRevisionPrompt d :
  forall rounds fs prompt fs',
  runInteractiveMode env buildRevisionPrompt d fs prompt rounds = Some (fs', None) ->
  (exists c, os_read_file fs' (docPath d) = Some c /\ c <> "" /\ originalReadmeContent d <> Some c)
  \/ exists fs0, fs' = restoreOriginalReadme d fs0.
Proof.
  induction rounds as [|r rest IH]; intros fs prompt fs' H; [discriminate|].
  cbn [runInteractiveMode] in H.
  destruct (executeTask env fs prompt) as [fs1 [result|e]]; [|discriminate].
  destruct (isTokenLimitMessage (FinalContent result)).
  { destruct (sectionBasedPrompt env); [exact (IH _ _ _ H)|discriminate]. }
  destruct (isTaskResultError (FinalContent result) (Conversation result)).
  { unfold handleInteractiveError in H. destruct (error_choice r) as [a|cc msg]; [|discriminate].
    destruct (String.eqb a "Exit"); cbv beta iota in H; [discriminate|exact (IH _ _ _ H)]. }
  destruct (user_action r) as [action|cc msg]; [|discriminate].
  unfold handleUserAction in H.
  destruct (String.eqb action "Accept and finalize").
  { unfold handleAcceptAction in H. destruct (displayReadmeIfUpdated d fs1) eqn:Hd;
      cbv beta iota in H.
    - injection H as <-. left. exact (displayReadme_true _ _ Hd).
    - destruct (follow_up r) as [c|cc msg]; cbv beta iota in H; [|discriminate].
      destruct (String.eqb c "Exit anyway"); cbv beta iota in H.
      + injection H as <-. right. eexists. reflexivity.
      + exact (IH _ _ _ H). }
  destruct (String.eqb action "Request changes").
  { unfold handleRequestChanges in H.
    destruct (follow_up r) as [c|[|] msg]; cbv beta iota in H; [destruct (is_blank c)| |];
      cbv beta iota in H; try discriminate; exact (IH _ _ _ H). }
  destruct (String.eqb action "Cancel"); cbv beta iota in H; [|discriminate].
  injection H as <-. right. eexists. reflexivity.
Qed.

(** [runInteractiveMode]: when it gives up with "user chose to exit due
    to LLM error", the backup has just been restored. *)
Theorem interactive_error_exit_restores env buildRevisionPrompt d :
  forall rounds fs prompt fs',
  runInteractiveMode env buildRevisionPrompt d fs prompt rounds
    = Some (fs', Some "user chose to exit due to LLM error") ->
  exists fs0, fs' = restoreOriginalReadme d fs0.
Proof.
  induction rounds as [|r rest IH]; intros fs prompt fs' H; [discriminate|].
  cbn [runInteractiveMode] in H.
  destruct (executeTask env fs prompt) as [fs1 [result|e]]; [|discriminate].
  destruct (isTokenLimitMessage (FinalContent result)).
  { destruct (sectionBasedPrompt env); [exact (IH _ _ _ H)|discriminate]. }
  destruct (isTaskResultError (FinalContent result) (Conversation result)).
  { unfold handleInteractiveError in H. destruct (error_choice r) as [a|cc msg]; [|discriminate].
    destruct (String.eqb a "Exit"); cbv beta iota in H; [|exact (IH _ _ _ H)].
    injection H as <-. eexists. reflexivity. }
  destruct (user_action r) as [action|cc msg]; [|discriminate].
  unfold handleUserAction in H.
  destruct (String.eqb action "Accept and finalize").
  { unfold handleAcceptAction in H. destruct (displayReadmeIfUpdated d fs1); cbv beta iota in H;
      [discriminate|].
    destruct (follow_up r) as [c|cc msg]; cbv beta iota in H; [|discriminate].
    destruct (String.eqb c "Exit anyway"); cbv beta iota in H; [discriminate|exact (IH _ _ _ H)]. }
  destruct (String.eqb action "Request changes").
  { unfold handleRequestChanges in H.
    destruct (follow_up r) as [c|[|] msg]; cbv beta iota in H; [destruct (is_blank c)| |];
      cbv beta iota in H; try discriminate; exact (IH _ _ _ H). }
  destruct (String.eqb action "Cancel"); cbv beta iota in H; discriminate.
Qed.


Lemma interactive_nil_accepted_or_restored_witness :
  let env := mkEnv (fun fs _ =>
               (match os_write_file fs (docPath agent_example) "# Docs" with
                | Some fs' => fs' | None => fs end,
                inl (mkTaskResult "The README is written." [])))
               (inr "no manifest") in
  let rounds := [mkRound (Answered "Try again") (Answered "Accept and finalize") (Answered "")] in
  let res := runInteractiveMode env (fun s => s) agent_example fs_example "go" rounds in
  let fs' := match res with Some (f, _) => f | None => fs_example end in
  res = Some (fs', None)
  /\ ((exists c, os_read_file fs' (docPath agent_example) = Some c /\ c <> "" /\ None <> Some c)
      \/ exists fs0, fs' = restoreOriginalReadme agent_example fs0).
Proof.
  intros env rounds res fs'.
  assert (H : res = Some (fs', None)) by (vm_compute; reflexivity).
  split; [exact H|].
  exact (interactive_nil_accepted_or_restored env (fun s => s) agent_example rounds fs_example "go" fs' H).
Defined.

Lemma interactive_error_exit_restores_witness :
  let rounds := [mkRound (Answered "Exit") (Answered "Cancel") (Answered "")] in
  let res := runInteractiveMode env_partial_write (fun s => s) agent_example fs_example "go" rounds in
  let fs' := match res with Some (f, _) => f | None => fs_example end in
  res = Some (fs', Some "user chose to exit due to LLM error")
  /\ exists fs0, fs' = restoreOriginalReadme agent_example fs0.
Proof.
  intros rounds res fs'.
  assert (H : res = Some (fs', Some "user chose to exit due to LLM error")) by (vm_compute; reflexivity).
  split; [exact H|].
  exact (interactive_error_exit_restores env_partial_write (fun s => s) agent_example rounds
           fs_example "go" fs' H).
Defined.


(** ** Lower-casing replies *)

Lemma to_lower_plain c rest :
  ~ (65 <= nat_of_ascii c <= 90) -> nat_of_ascii c <> 195 ->
  to_lower (String c rest) = String c (to_lower rest).
Proof.
  intros H1 H2. rewrite to_lower_cons. cbv zeta.
  destruct ((65 <=? nat_of_ascii c) && (nat_of_ascii c <=? 90)) eqn:U.
  { apply andb_true_iff in U as [U1 U2]. apply Nat.leb_le in U1, U2. lia. }
  destruct (nat_of_ascii c =? 195) eqn:E; [apply Nat.eqb_eq in E; lia|reflexivity].
Qed.

Lemma to_lower_upper c rest :
  65 <= nat_of_ascii c <= 90 ->
  to_lower (String c rest) = String (ascii_of_nat (nat_of_ascii c + 32)) (to_lower rest).
Proof.
  intros H. rewrite to_lower_cons. cbv zeta.
  assert (U : (65 <=? nat_of_ascii c) && (nat_of_ascii c <=? 90) = true)
    by (apply andb_true_iff; split; apply Nat.leb_le; lia).
  rewrite U. reflexivity.
Qed.

Lemma to_lower_c3_in c c2 rest2 :
  nat_of_ascii c = 195 -> 128 <= nat_of_ascii c2 <= 158 -> nat_of_ascii c2 <> 151 ->
  to_lower (String c (String c2 rest2))
  = String c (String (ascii_of_nat (nat_of_ascii c2 + 32)) (to_lower rest2)).
Proof.
  intros H1 H2 H3. rewrite to_lower_cons. cbv zeta. rewrite H1. cbv beta iota.
  assert (M : (128 <=? nat_of_ascii c2) && (nat_of_ascii c2 <=? 158) && negb (nat_of_ascii c2 =? 151) = true).
  { apply andb_true_iff; split; [apply andb_true_iff; split; apply Nat.leb_le; lia|].
    apply negb_true_iff, Nat.eqb_neq. exact H3. }
  rewrite M. reflexivity.
Qed.

Lemma to_lower_c3_out c rest :
  nat_of_ascii c = 195 ->
  (forall c2 rest2, rest = String c2 rest2 ->
     ~ (128 <= nat_of_ascii c2 <= 158 /\ nat_of_ascii c2 <> 151)) ->
  to_lower (String c rest) = String c (to_lower rest).
Proof.
  intros H1 H2. rewrite to_lower_cons. cbv zeta. rewrite H1. cbv beta iota.
  destruct rest as [|c2 rest2]; [reflexivity|].
  destruct ((128 <=? nat_of_ascii c2) && (nat_of_ascii c2 <=? 158) && negb (nat_of_ascii c2 =? 151)) eqn:M;
    [|reflexivity].
  exfalso. apply (H2 c2 rest2 eq_refl).
  apply andb_true_iff in M as [M M3]. apply andb_true_iff in M as [M1 M2].
  apply Nat.leb_le in M1, M2. apply negb_true_iff, Nat.eqb_neq in M3. lia.
Qed.

Lemma to_lower_head c rest : exists c' r', to_lower (String c rest) = String c' r'
  /\ (c' = c \/ (65 <= nat_of_ascii c <= 90 /\ nat_of_ascii c' = nat_of_ascii c + 32)).
Proof.
  destruct (Compare_dec.le_dec 65 (nat_of_ascii c)), (Compare_dec.le_dec (nat_of_ascii c) 90).
  - rewrite to_lower_upper by lia. eexists _, _. split; [reflexivity|right].
    split; [lia|]. apply ascii_of_nat_nat. lia.
  - rewrite to_lower_cons. cbv zeta.
    destruct ((65 <=? nat_of_ascii c) && (nat_of_ascii c <=? 90)) eqn:U.
    { apply andb_true_iff in U as [_ U2]. apply Nat.leb_le in U2. lia. }
    destruct (nat_of_ascii c =? 195); [destruct rest as [|c2 r2];
      [|destruct (_ && _ && _)]|]; eexists _, _; (split; [reflexivity|left; reflexivity]).
  - rewrite to_lower_cons. cbv zeta.
    destruct ((65 <=? nat_of_ascii c) && (nat_of_ascii c <=? 90)) eqn:U.
    { apply andb_true_iff in U as [U1 _]. apply Nat.leb_le in U1. lia. }
    destruct (nat_of_ascii c =? 195); [destruct rest as [|c2 r2];
      [|destruct (_ && _ && _)]|]; eexists _, _; (split; [reflexivity|left; reflexivity]).
  - rewrite to_lower_cons. cbv zeta.
    destruct ((65 <=? nat_of_ascii c) && (nat_of_ascii c <=? 90)) eqn:U.
    { apply andb_true_iff in U as [U1 _]. apply Nat.leb_le in U1. lia. }
    destruct (nat_of_ascii c =? 195); [destruct rest as [|c2 r2];
      [|destruct (_ && _ && _)]|]; eexists _, _; (split; [reflexivity|left; reflexivity]).
Qed.

Lemma to_lower_idem_len n : forall s, String.length s <= n -> to_lower (to_lower s) = to_lower s.
Proof.
  induction n as [|n IH]; intros s Hs; (destruct s as [|c rest]; [reflexivity|]);
    cbn [String.length] in Hs; [lia|].
  destruct (Compare_dec.le_dec 65 (nat_of_ascii c)) as [L1|L1];
    [destruct (Compare_dec.le_dec (nat_of_ascii c) 90) as [L2|L2]|].
  - rewrite to_lower_upper by lia.
    assert (Hc : nat_of_ascii (ascii_of_nat (nat_of_ascii c + 32)) = nat_of_ascii c + 32)
      by (apply ascii_of_nat_nat; lia).
    rewrite to_lower_plain by (rewrite Hc; lia). rewrite IH by lia. reflexivity.
  - destruct (Nat.eq_dec (nat_of_ascii c) 195) as [E|E].
    + destruct rest as [|c2 rest2]; [rewrite to_lower_c3_out by (try exact E; intros ? ? H; discriminate H);
        rewrite to_lower_c3_out by (try exact E; intros ? ? H; discriminate H); reflexivity|].
      destruct (Compare_dec.le_dec 128 (nat_of_ascii c2)), (Compare_dec.le_dec (nat_of_ascii c2) 158),
        (Nat.eq_dec (nat_of_ascii c2) 151);
        try (rewrite to_lower_c3_in by (first [exact E|lia]);
             assert (Hc : nat_of_ascii (ascii_of_nat (nat_of_ascii c2 + 32)) = nat_of_ascii c2 + 32)
               by (apply ascii_of_nat_nat; lia);
             rewrite to_lower_c3_out by (first [exact E|intros c3 r3 H; injection H as <- _; rewrite Hc; lia]);
             rewrite to_lower_plain by (rewrite Hc; lia);
             cbn [String.length] in Hs; rewrite IH by lia; reflexivity).
      all: rewrite to_lower_c3_out by (first [exact E|intros c3 r3 H; injection H as <- <-; lia]).
      all: destruct (to_lower_head c2 rest2) as [c' [r' [Hh Hc']]]; rewrite Hh.
      all: rewrite to_lower_c3_out by (first [exact E|intros c3 r3 H; injection H as <- <-;
                                       destruct Hc' as [->|[? ?]]; lia]).
      all: rewrite <- Hh, IH by (cbn [String.length] in *; lia); reflexivity.
    + rewrite to_lower_plain by lia. rewrite to_lower_plain by lia.
      rewrite IH by lia. reflexivity.
  - rewrite to_lower_plain by lia. rewrite to_lower_plain by lia.
    rewrite IH by lia. reflexivity.
Qed.

Lemma to_lower_idem s : to_lower (to_lower s) = to_lower s.
Proof. apply (to_lower_idem_len (String.length s)). lia. Qed.

